(** * Streak analytics of the habit tracker

    A shallow embedding of [src/modules/analytics.py] and of the [Habit]
    dataclass of [src/modules/habit.py], and the properties of the streak
    engine proved over it; then of the code around it: the rows of the
    habits table, the [HabitManager] of [src/modules/habit_manager.py] over
    the [StorageHandler] interface, and the in-memory storage of
    [tests/test_habit_manager.py].

    Conventions of the embedding:
    - a naive UTC [datetime] is the integer number of microseconds since the
      first representable instant; a [timedelta] is a signed number of
      microseconds.  Python bounds both types, and no subtraction of two
      datetimes nor [period + timedelta(hours=12)] can leave those bounds,
      so the arithmetic is plain arithmetic on [Z];
    - [datetime.utcnow()] is an effect: the ambient clock is part of the
      world, and every read consumes the next reading of the clock;
    - a raised exception is a value of [Result]; nothing in the modelled code
      catches one. *)

From Stdlib Require Import ZArith String List Lia.
From stdpp Require Import base decidable list sorting strings gmap.

Local Open Scope string_scope.
Local Open Scope Z_scope.
Local Open Scope list_scope.

(** ** Time *)

Abbreviation datetime := Z (only parsing).
Abbreviation timedelta := Z (only parsing).

Definition usec_per_hour : Z := 3600 * 1000000.

(** [timedelta(hours=h)], [timedelta(days=d)] and [timedelta(weeks=w)]. *)
Definition timedelta_hours (h : Z) : timedelta := h * usec_per_hour.
Definition timedelta_days (d : Z) : timedelta := d * (24 * usec_per_hour).
Definition timedelta_weeks (w : Z) : timedelta := w * (7 * (24 * usec_per_hour)).

(** ** Exceptions, the ambient clock and the monad of the code *)

Inductive exn : Type :=
| ValueError (msg : string)
| IndexError.

Inductive Result (A : Type) : Type :=
| Ok (a : A)
| Raise (e : exn).
Arguments Ok {A} a.
Arguments Raise {A} e.

(** The world a call runs in: the readings the clock will give, in the
    order in which they are asked for, and how many were consumed so far. *)
Record World : Type := mkWorld {
  clock : nat -> datetime;
  reads : nat
}.

Definition M (A : Type) : Type := World -> Result A * World.

Definition ret {A} (a : A) : M A := fun w => (Ok a, w).

Definition raise {A} (e : exn) : M A := fun w => (Raise e, w).

Definition bind {A B} (m : M A) (k : A -> M B) : M B :=
  fun w =>
    match m w with
    | (Ok a, w') => k a w'
    | (Raise e, w') => (Raise e, w')
    end.

Definition liftR {A} (r : Result A) : M A := fun w => (r, w).

Notation "x <- m ;; k" := (bind m (fun x => k))
  (at level 100, m at next level, right associativity).

(** [datetime.utcnow()]. *)
Definition utcnow : M datetime :=
  fun w => (Ok (clock w (reads w)), mkWorld (clock w) (S (reads w))).

(** The reading the next [utcnow()] returns, and the world after it. *)
Definition now_of (w : World) : datetime := clock w (reads w).
Definition tick (w : World) : World := mkWorld (clock w) (S (reads w)).

(** [list(map(f, xs))] for an effectful [f]: left to right, the first
    exception ends the traversal. *)
Fixpoint mapM {A B} (f : A -> M B) (xs : list A) : M (list B) :=
  match xs with
  | [] => ret []
  | x :: xs' =>
      y <- f x ;;
      ys <- mapM f xs' ;;
      ret (y :: ys)
  end.

(** ** Python built-ins used by the code *)

(** [sorted(l)] on datetimes. *)
Definition sorted (l : list datetime) : list datetime := merge_sort Z.le l.

(** [l[i]]: a negative index counts from the end, an index out of range
    raises [IndexError]. *)
Definition py_index {A} (l : list A) (i : Z) : Result A :=
  let n := Z.of_nat (length l) in
  let j := if i <? 0 then i + n else i in
  if (j <? 0) || (n <=? j) then Raise IndexError
  else match l !! Z.to_nat j with
       | Some x => Ok x
       | None => Raise IndexError
       end.

(** [range(start, stop, -1)]: [start, start - 1, ...], down to just above
    [stop]. *)
Definition range_down (start stop : Z) : list Z :=
  map (fun k => start - Z.of_nat k) (seq 0 (Z.to_nat (start - stop))).

(** [max(l, key=key)]: the running maximum is replaced only by a strictly
    greater key, so the first maximal item is kept.  On an empty list [max]
    raises [ValueError] (the wording of its message varies with the version
    of the interpreter). *)
Fixpoint max_from {A} (key : A -> Z) (best : A) (l : list A) : A :=
  match l with
  | [] => best
  | x :: l' => if key x >? key best then max_from key x l' else max_from key best l'
  end.

Definition py_max {A} (key : A -> Z) (l : list A) : Result A :=
  match l with
  | [] => Raise (ValueError "max() arg is an empty sequence")
  | x :: l' => Ok (max_from key x l')
  end.

(** ** habit.py *)

Definition VALID_PERIODICITIES : gset string :=
  {[ "daily"; "weekly"; "monthly" ]}.

Module Habit.

Record t : Type := mk {
  id : option Z;
  name : string;
  periodicity : string;
  created_at : datetime;
  completions : list datetime
}.

(** [__post_init__]. *)
Definition post_init (self : t) : M unit :=
  if bool_decide (periodicity self ∈ VALID_PERIODICITIES) then ret tt
  else raise (ValueError (String.append "Invalid periodicity '"
                (String.append (periodicity self)
                   "'. Valid: ['daily', 'monthly', 'weekly']"))).

(** The generated [__init__]: an omitted [created_at] is read from the
    clock, an omitted [completions] is a fresh empty list; then
    [__post_init__] runs. *)
Definition init (id : option Z) (name periodicity : string)
    (created_at : option datetime) (completions : option (list datetime)) : M t :=
  created <- match created_at with
             | Some c => ret c
             | None => utcnow
             end ;;
  let self := mk id name periodicity created (default [] completions) in
  _ <- post_init self ;;
  ret self.

(** [add_completion]: [when or datetime.utcnow()] is appended to the log (no
    datetime is falsy, so [when] is used whenever it is given). *)
Definition add_completion (self : t) (when : option datetime) : M t :=
  ts <- match when with
        | Some t => ret t
        | None => utcnow
        end ;;
  ret (mk (id self) (name self) (periodicity self) (created_at self)
          (completions self ++ [ts])).

End Habit.

Abbreviation Habit := Habit.t.

(** ** analytics.py *)

Definition _period_delta (periodicity : string) : Result timedelta :=
  if String.eqb periodicity "daily" then Ok (timedelta_days 1)
  else if String.eqb periodicity "weekly" then Ok (timedelta_weeks 1)
  else if String.eqb periodicity "monthly" then Ok (timedelta_days 30)
  else Raise (ValueError (String.append "Unsupported periodicity: " periodicity)).

(** The body of [for i in range(len(completions) - 2, -1, -1)], over the
    indices still to visit; leaving the loop by [break] and by exhaustion
    both return the streak counted so far. *)
Fixpoint streak_loop (completions : list datetime) (period : timedelta)
    (indices : list Z) (streak : Z) : Result Z :=
  match indices with
  | [] => Ok streak
  | i :: rest =>
      match py_index completions (i + 1), py_index completions i with
      | Ok later, Ok earlier =>
          let delta := later - earlier in
          if delta <=? period + timedelta_hours 12
          then streak_loop completions period rest (streak + 1)
          else Ok streak
      | Raise e, _ => Raise e
      | _, Raise e => Raise e
      end
  end.

Definition calculate_streaks (habit : Habit) : M Z :=
  let completions := sorted (Habit.completions habit) in
  match completions with
  | [] => ret 0
  | _ :: _ =>
      period <- liftR (_period_delta (Habit.periodicity habit)) ;;
      now <- utcnow ;;
      last <- liftR (py_index completions (-1)) ;;
      if now - last >? period + timedelta_hours 12 then ret 0
      else
        liftR (streak_loop completions period
                 (range_down (Z.of_nat (length completions) - 2) (-1)) 1)
  end.

Definition list_all_habits (habits : list Habit) : list string :=
  map Habit.name habits.

Definition list_by_periodicity (habits : list Habit) (periodicity : string) : list Habit :=
  filter (fun h => Habit.periodicity h = periodicity) habits.

Definition longest_streak_for_habit (habit : Habit) : M Z :=
  calculate_streaks habit.

Definition longest_streak_overall (habits : list Habit) : M (option (string * Z)) :=
  match habits with
  | [] => ret None
  | _ :: _ =>
      streaks <- mapM (fun h => s <- calculate_streaks h ;; ret (Habit.name h, s)) habits ;;
      match streaks with
      | [] => ret None
      | _ :: _ => best <- liftR (py_max snd streaks) ;; ret (Some best)
      end
  end.

Section NameLookup.

(** [str.lower], Python's Unicode lower-casing; the code only compares its
    results for equality. *)
Variable str_lower : string -> string.

(** The test of the loop, as a proposition. *)
Definition name_matches (name : string) (h : Habit) : Prop :=
  str_lower (Habit.name h) = str_lower name.

Fixpoint longest_streak_for_habit_name (habits : list Habit) (name : string)
    : M (option Z) :=
  match habits with
  | [] => ret None
  | h :: rest =>
      if String.eqb (str_lower (Habit.name h)) (str_lower name)
      then s <- calculate_streaks h ;; ret (Some s)
      else longest_streak_for_habit_name rest name
  end.

End NameLookup.

(** An instance of [str.lower] on ASCII text, for running examples. *)
Definition ascii_lower (c : Ascii.ascii) : Ascii.ascii :=
  let n := Ascii.nat_of_ascii c in
  if (65 <=? n)%nat && (n <=? 90)%nat then Ascii.ascii_of_nat (n + 32) else c.

Fixpoint lower_ascii (s : string) : string :=
  match s with
  | EmptyString => EmptyString
  | String c s' => String (ascii_lower c) (lower_ascii s')
  end.

(** ** Reference definitions, in the words of the specification *)

(** The enumerated periodicity and the string the code knows it by. *)
Inductive Periodicity : Type := daily | weekly | monthly.

Definition Periodicity_str (p : Periodicity) : string :=
  match p with
  | daily => "daily"
  | weekly => "weekly"
  | monthly => "monthly"
  end.

(** daily: 24h, weekly: 7d, monthly: 30d. *)
Definition period_length (p : Periodicity) : timedelta :=
  match p with
  | daily => timedelta_hours 24
  | weekly => timedelta_days 7
  | monthly => timedelta_days 30
  end.

(** The tolerance window: the period and the 12-hour grace. *)
Definition window (p : Periodicity) : timedelta :=
  period_length p + timedelta_hours 12.

(** Walking backward from the completion [later] through the completions
    before it, most recent first: one more for every gap within the window,
    until the first gap that exceeds it. *)
Fixpoint walk_back (win : timedelta) (later : datetime) (before : list datetime)
    (streak : Z) : Z :=
  match before with
  | [] => streak
  | c :: before' =>
      if later - c <=? win then walk_back win c before' (streak + 1) else streak
  end.

Definition calculate_current_streak (completions : list datetime)
    (p : Periodicity) (now : datetime) : Z :=
  match reverse (sorted completions) with
  | [] => 0
  | last_completion :: before =>
      if now - last_completion >? window p then 0
      else walk_back (window p) last_completion before 1
  end.

(** The historical maximum: the longest run of completions, anywhere in the
    sorted log, in which every completion is within the window of the one
    before it. *)
Fixpoint longest_run (win : timedelta) (prev : datetime) (rest : list datetime)
    (run best : Z) : Z :=
  match rest with
  | [] => Z.max run best
  | c :: rest' =>
      if c - prev <=? win then longest_run win c rest' (run + 1) best
      else longest_run win c rest' 1 (Z.max run best)
  end.

Definition historical_max_streak (completions : list datetime) (p : Periodicity) : Z :=
  match sorted completions with
  | [] => 0
  | c :: rest => longest_run (window p) c rest 1 0
  end.

(** [best] is the first item of [l] whose key is the greatest: every item
    before it has a strictly smaller key, no item after it has a greater one. *)
Definition first_max {A} (key : A -> Z) (l : list A) (best : A) : Prop :=
  exists before after : list A,
    l = before ++ best :: after /\
    Forall (fun x => key x < key best) before /\
    Forall (fun x => key x <= key best) after.

(** [entry] is the pair that [longest_streak_overall], started in world [w],
    computes for [h]: its name, and the streak [calculate_streaks] returns
    for it after some number of further clock readings. *)
Definition streak_entry (w : World) (h : Habit) (entry : string * Z) : Prop :=
  fst entry = Habit.name h /\
  exists k : nat,
    fst (calculate_streaks h (mkWorld (clock w) (reads w + k))) = Ok (snd entry).

(** ** habit.py: rows of the habits table *)

Section DbRow.

(** [datetime.isoformat] and [datetime.fromisoformat]; the latter raises
    [ValueError] on a text it cannot read. *)
Variable isoformat : datetime -> string.
Variable fromisoformat : string -> Result datetime.

(** [to_db_row]: (name, periodicity, created_at_iso). *)
Definition to_db_row (self : Habit) : string * string * string :=
  (Habit.name self, Habit.periodicity self, isoformat (Habit.created_at self)).

(** [from_db_row], for a row (id, name, periodicity, created_at_iso);
    [completions or []] is the empty list for [None] and for an empty list. *)
Definition from_db_row (row : Z * string * string * string)
    (completions : option (list datetime)) : M Habit :=
  let '(hid, name, periodicity, created_at_iso) := row in
  created_at <- liftR (fromisoformat created_at_iso) ;;
  Habit.init (Some hid) name periodicity (Some created_at)
    (Some (default [] completions)).

End DbRow.

(** Instances of [isoformat] and [fromisoformat] for running examples: the
    text that [isoformat()] writes for a naive datetime,
    [YYYY-MM-DDTHH:MM:SS] with [.ffffff] appended when the microseconds are
    not zero, and a reader of exactly that text. *)

(** Year, month and day of the day [z] days after 0001-01-01, in the
    proleptic Gregorian calendar, and back. *)
Definition civil_of_days (z : Z) : Z * Z * Z :=
  let z := z + 306 in
  let era := z / 146097 in
  let doe := z mod 146097 in
  let yoe := (doe - doe / 1460 + doe / 36524 - doe / 146096) / 365 in
  let doy := doe - (365 * yoe + yoe / 4 - yoe / 100) in
  let mp := (5 * doy + 2) / 153 in
  let d := doy - (153 * mp + 2) / 5 + 1 in
  let m := if mp <? 10 then mp + 3 else mp - 9 in
  (yoe + era * 400 + (if m <=? 2 then 1 else 0), m, d).

Definition days_of_civil (y m d : Z) : Z :=
  let y := if m <=? 2 then y - 1 else y in
  let era := y / 400 in
  let yoe := y mod 400 in
  let doy := (153 * (if 2 <? m then m - 3 else m + 9) + 2) / 5 + d - 1 in
  era * 146097 + (yoe * 365 + yoe / 4 - yoe / 100 + doy) - 306.

(** The last [width] decimal digits of [n]. *)
Fixpoint digits (width : nat) (n : Z) : string :=
  match width with
  | O => EmptyString
  | S width' =>
      String.append (digits width' (n / 10))
        (String (Ascii.ascii_of_nat (48 + Z.to_nat (n mod 10))) EmptyString)
  end.

(** The number a string of decimal digits writes. *)
Fixpoint number (s : string) (acc : Z) : option Z :=
  match s with
  | EmptyString => Some acc
  | String c s' =>
      let n := Ascii.nat_of_ascii c in
      if (48 <=? n)%nat && (n <=? 57)%nat
      then number s' (10 * acc + Z.of_nat (n - 48))
      else None
  end.

Definition isoformat_naive (t : datetime) : string :=
  let '(y, m, d) := civil_of_days (t / timedelta_days 1) in
  let in_day := t mod timedelta_days 1 in
  let us := in_day mod 1000000 in
  let sec := in_day / 1000000 in
  String.append (digits 4 y) (String.append "-" (String.append (digits 2 m)
    (String.append "-" (String.append (digits 2 d) (String.append "T"
    (String.append (digits 2 (sec / 3600)) (String.append ":"
    (String.append (digits 2 (sec / 60 mod 60)) (String.append ":"
    (String.append (digits 2 (sec mod 60))
       (if us =? 0 then EmptyString else String.append "." (digits 6 us)))))))))))).

Definition fromisoformat_naive (s : string) : Result datetime :=
  let field (start len : nat) := number (String.substring start len s) 0 in
  match field 0%nat 4%nat, field 5%nat 2%nat, field 8%nat 2%nat,
        field 11%nat 2%nat, field 14%nat 2%nat, field 17%nat 2%nat,
        field 20%nat 6%nat with
  | Some y, Some m, Some d, Some hh, Some mm, Some ss, Some us =>
      let t := timedelta_days (days_of_civil y m d)
               + ((hh * 3600 + mm * 60 + ss) * 1000000 + us) in
      if String.eqb (isoformat_naive t) s then Ok t
      else Raise (ValueError (String.append "Invalid isoformat string: " s))
  | _, _, _, _, _, _, _ =>
      Raise (ValueError (String.append "Invalid isoformat string: " s))
  end.

(** ** Code with a storage behind it *)

(** A storage handler keeps a state of its own, of some type [S]; the code
    that uses one runs in that state and in the world of the clock, and what
    it did to either stays done when an exception leaves it. *)
Definition SM (S A : Type) : Type := S -> World -> Result A * S * World.

Definition sm_ret {S A} (a : A) : SM S A := fun s w => (Ok a, s, w).

Definition sm_bind {S A B} (m : SM S A) (k : A -> SM S B) : SM S B :=
  fun s w =>
    match m s w with
    | (Ok a, s', w') => k a s' w'
    | (Raise e, s', w') => (Raise e, s', w')
    end.

(** Code that does not touch the storage. *)
Definition liftW {S A} (m : M A) : SM S A :=
  fun s w => let (r, w') := m w in (r, s, w').

Notation "x <<- m ;; k" := (sm_bind m (fun x => k))
  (at level 100, m at next level, right associativity).

(** *** storage_handler.py *)

Module Storage.

(** The abstract interface [StorageHandler]; [update_habit] receives the
    keyword arguments [name] and [periodicity], each possibly [None]. *)
Class Handler (S : Type) : Type := {
  ensure_tables : SM S unit;
  save_habit : Habit -> SM S Z;
  load_habits : SM S (list Habit);
  get_habit_by_id : Z -> SM S (option Habit);
  update_habit : Z -> option string -> option string -> SM S bool;
  delete_habit : Z -> SM S bool;
  add_completion : Z -> datetime -> SM S bool;
  get_completions : Z -> SM S (list datetime)
}.

End Storage.

(** *** habit_manager.py *)

Module HabitManager.

Section WithStorage.

Context {S : Type} {storage : Storage.Handler S}.

(** [__init__]. *)
Definition init : SM S unit := Storage.ensure_tables.

Definition get_habit (habit_id : Z) : SM S (option Habit) :=
  Storage.get_habit_by_id habit_id.

Definition create_habit (name periodicity : string) : SM S (option Habit) :=
  created_at <<- liftW utcnow ;;
  habit <<- liftW (Habit.init None name periodicity (Some created_at) None) ;;
  hid <<- Storage.save_habit habit ;;
  get_habit hid.

Definition list_habits : SM S (list Habit) := Storage.load_habits.

Definition update_habit (habit_id : Z) (name periodicity : option string) : SM S bool :=
  Storage.update_habit habit_id name periodicity.

Definition delete_habit (habit_id : Z) : SM S bool :=
  Storage.delete_habit habit_id.

Definition complete_habit (habit_id : Z) (when : option datetime) : SM S bool :=
  habit <<- get_habit habit_id ;;
  match habit with
  | None => sm_ret false
  | Some _ =>
      ts <<- match when with
             | Some t => sm_ret t
             | None => liftW utcnow
             end ;;
      ok <<- Storage.add_completion habit_id ts ;;
      sm_ret ok
  end.

Definition latest_completion (habit_id : Z) : SM S (option datetime) :=
  habit <<- get_habit habit_id ;;
  match habit with
  | Some h =>
      match Habit.completions h with
      | [] => sm_ret None
      | _ :: _ =>
          m <<- liftW (liftR (py_max (fun c => c) (Habit.completions h))) ;;
          sm_ret (Some m)
      end
  | None => sm_ret None
  end.

End WithStorage.

End HabitManager.

(** *** The in-memory storage of tests/test_habit_manager.py *)

(** A Python [dict] with integer keys: its items in insertion order, every
    key once. *)
Section Dict.

Context {V : Type}.

(** [d.get(k)]. *)
Fixpoint dict_get (k : Z) (d : list (Z * V)) : option V :=
  match d with
  | [] => None
  | (k', v) :: d' => if k' =? k then Some v else dict_get k d'
  end.

(** [d[k] = v]: a key that is present keeps its place, a new key goes last. *)
Fixpoint dict_set (k : Z) (v : V) (d : list (Z * V)) : list (Z * V) :=
  match d with
  | [] => [(k, v)]
  | (k', v') :: d' => if k' =? k then (k', v) :: d' else (k', v') :: dict_set k v d'
  end.

(** What [d.pop(k, None)] leaves in [d]. *)
Fixpoint dict_pop (k : Z) (d : list (Z * V)) : list (Z * V) :=
  match d with
  | [] => []
  | (k', v') :: d' => if k' =? k then d' else (k', v') :: dict_pop k d'
  end.

(** [list(d.values())]. *)
Definition dict_values (d : list (Z * V)) : list V := map snd d.

End Dict.

Module DummyStorage.

(** The attributes of a [DummyStorage].  A habit object is stored under one
    key only (the manager saves each object once), and the value kept under
    the key is the state of that object. *)
Record t : Type := mk {
  habits : list (Z * Habit);
  completions : list (Z * list datetime);
  next_id : Z;
  tables_ensured : bool
}.

(** [DummyStorage()]. *)
Definition new : t := mk [] [] 1 false.

Definition ensure_tables : SM t unit :=
  fun s w => (Ok tt, mk (habits s) (completions s) (next_id s) true, w).

(** [habit.id] is set on the object, which is then stored. *)
Definition save_habit (habit : Habit) : SM t Z :=
  fun s w =>
    let stored := Habit.mk (Some (next_id s)) (Habit.name habit) (Habit.periodicity habit)
                    (Habit.created_at habit) (Habit.completions habit) in
    (Ok (next_id s),
     mk (dict_set (next_id s) stored (habits s)) (completions s) (next_id s + 1)
        (tables_ensured s),
     w).

Definition load_habits : SM t (list Habit) :=
  fun s w => (Ok (dict_values (habits s)), s, w).

Definition get_habit_by_id (hid : Z) : SM t (option Habit) :=
  fun s w => (Ok (dict_get hid (habits s)), s, w).

(** [setattr] for every field that is not [None]: [name], then
    [periodicity]. *)
Definition update_habit (hid : Z) (name periodicity : option string) : SM t bool :=
  fun s w =>
    match dict_get hid (habits s) with
    | None => (Ok false, s, w)
    | Some h =>
        let h' := Habit.mk (Habit.id h) (default (Habit.name h) name)
                    (default (Habit.periodicity h) periodicity)
                    (Habit.created_at h) (Habit.completions h) in
        (Ok true,
         mk (dict_set hid h' (habits s)) (completions s) (next_id s) (tables_ensured s),
         w)
    end.

Definition delete_habit (hid : Z) : SM t bool :=
  fun s w =>
    match dict_get hid (habits s) with
    | None => (Ok false, s, w)
    | Some _ =>
        (Ok true,
         mk (dict_pop hid (habits s)) (completions s) (next_id s) (tables_ensured s),
         w)
    end.

(** The timestamp goes to the list kept under [hid] in [completions] and to
    the list of the habit object. *)
Definition add_completion (hid : Z) (when : datetime) : SM t bool :=
  fun s w =>
    match dict_get hid (habits s) with
    | None => (Ok false, s, w)
    | Some h =>
        let h' := Habit.mk (Habit.id h) (Habit.name h) (Habit.periodicity h)
                    (Habit.created_at h) (Habit.completions h ++ [when]) in
        (Ok true,
         mk (dict_set hid h' (habits s))
            (dict_set hid (default [] (dict_get hid (completions s)) ++ [when])
               (completions s))
            (next_id s) (tables_ensured s),
         w)
    end.

Definition get_completions (hid : Z) : SM t (list datetime) :=
  fun s w => (Ok (default [] (dict_get hid (completions s))), s, w).

#[global] Instance handler : Storage.Handler t := {
  Storage.ensure_tables := ensure_tables;
  Storage.save_habit := save_habit;
  Storage.load_habits := load_habits;
  Storage.get_habit_by_id := get_habit_by_id;
  Storage.update_habit := update_habit;
  Storage.delete_habit := delete_habit;
  Storage.add_completion := add_completion;
  Storage.get_completions := get_completions
}.

(** What holds of every store that the manager built: the keys are distinct
    and below [next_id], and a habit carries the key it is stored under. *)
Definition wf (s : t) : Prop :=
  NoDup (map fst (habits s)) /\
  Forall (fun kv => fst kv < next_id s /\ Habit.id (snd kv) = Some (fst kv)) (habits s).

End DummyStorage.

(** The stores a manager over the in-memory storage can be in: the store
    after [HabitManager(DummyStorage())], and the store after a call of any
    method of the manager on such a store, whatever the clock shows and
    whether the call returns or raises. *)
Inductive reachable : DummyStorage.t -> Prop :=
| reach_init (w : World) :
    reachable (snd (fst (HabitManager.init DummyStorage.new w)))
| reach_create (s : DummyStorage.t) (w : World) (name periodicity : string) :
    reachable s ->
    reachable (snd (fst (HabitManager.create_habit name periodicity s w)))
| reach_list (s : DummyStorage.t) (w : World) :
    reachable s ->
    reachable (snd (fst (HabitManager.list_habits s w)))
| reach_get (s : DummyStorage.t) (w : World) (habit_id : Z) :
    reachable s ->
    reachable (snd (fst (HabitManager.get_habit habit_id s w)))
| reach_update (s : DummyStorage.t) (w : World) (habit_id : Z)
    (name periodicity : option string) :
    reachable s ->
    reachable (snd (fst (HabitManager.update_habit habit_id name periodicity s w)))
| reach_delete (s : DummyStorage.t) (w : World) (habit_id : Z) :
    reachable s ->
    reachable (snd (fst (HabitManager.delete_habit habit_id s w)))
| reach_complete (s : DummyStorage.t) (w : World) (habit_id : Z)
    (when : option datetime) :
    reachable s ->
    reachable (snd (fst (HabitManager.complete_habit habit_id when s w)))
| reach_latest (s : DummyStorage.t) (w : World) (habit_id : Z) :
    reachable s ->
    reachable (snd (fst (HabitManager.latest_completion habit_id s w))).

(** Ids are positive, distinct, below the next id and written on the
    habits; the tables were ensured; and the two records of a habit's
    completions agree: the log of the stored habit is the list that
    [get_completions] returns for its id. *)
Definition consistent (s : DummyStorage.t) : Prop :=
  DummyStorage.wf s /\
  1 <= DummyStorage.next_id s /\
  DummyStorage.tables_ensured s = true /\
  Forall (fun kc => fst kc < DummyStorage.next_id s) (DummyStorage.completions s) /\
  Forall (fun kv => Habit.completions (snd kv)
                    = default [] (dict_get (fst kv) (DummyStorage.completions s)))
    (DummyStorage.habits s).

(** ** Vocabulary for the further properties *)

(** [m] is the latest completion of the log [cs]. *)
Definition is_latest (m : datetime) (cs : list datetime) : Prop :=
  m ∈ cs /\ Forall (fun c => c <= m) cs.

(** From [a] to the later [b] it is at most [win]. *)
Definition within (win : timedelta) (a b : datetime) : Prop := b - a <= win.

(** The habit [h] with the log [cs] in place of its own. *)
Definition with_completions (h : Habit) (cs : list datetime) : Habit :=
  Habit.mk (Habit.id h) (Habit.name h) (Habit.periodicity h) (Habit.created_at h) cs.

(** ** Concrete habits and clocks for the examples *)

(** Some instant, and a world whose clock shows [t] whenever it is read. *)
Definition t0 : datetime := timedelta_days 739000.

Definition world_at (t : datetime) : World := mkWorld (fun _ => t) 0.

(** A world in which two days pass between one reading and the next. *)
Definition world_drifting : World :=
  mkWorld (fun k => t0 + timedelta_days (2 * Z.of_nat k)) 0.

Definition drink_water : Habit :=
  Habit.mk (Some 1) "Drink Water" "daily" (t0 - timedelta_days 9) [t0].

Definition workout : Habit :=
  Habit.mk (Some 2) "Workout" "weekly" (t0 - timedelta_days 30)
    [t0; t0 - timedelta_days 6; t0 - timedelta_days 20].

(** Three days in a row a month ago, then one completion today. *)
Definition reading : Habit :=
  Habit.mk (Some 3) "Reading" "daily" (t0 - timedelta_days 40)
    [t0 - timedelta_days 30; t0 - timedelta_days 29; t0 - timedelta_days 28; t0].

(** The log of [workout] under a daily period. *)
Definition workout_daily : Habit :=
  Habit.mk (Some 2) "Workout" "daily" (t0 - timedelta_days 30)
    [t0; t0 - timedelta_days 6; t0 - timedelta_days 20].

(** Completed twice at the same instant today, and once yesterday. *)
Definition stretching : Habit :=
  Habit.mk (Some 4) "Stretching" "daily" (t0 - timedelta_days 3)
    [t0; t0 - timedelta_days 1; t0].

(** A store as the manager leaves it after three habits were created and
    completed. *)
Definition sample_store : DummyStorage.t :=
  DummyStorage.mk
    [(1, drink_water); (2, workout); (3, reading)]
    [(1, Habit.completions drink_water); (2, Habit.completions workout);
     (3, Habit.completions reading)]
    4 true.

(** A record whose periodicity was overwritten after construction, without
    and with a completion. *)
Definition yearly_empty : Habit :=
  Habit.mk None "Taxes" "yearly" t0 [].

Definition yearly_done : Habit :=
  Habit.mk None "Taxes" "yearly" t0 [t0].

(** * Properties *)

(** ** The built-ins *)

Lemma sorted_Sorted (l : list datetime) : Sorted Z.le (sorted l).
Proof. unfold sorted. apply (Sorted_merge_sort Z.le). Qed.

Lemma sorted_Permutation (l : list datetime) : sorted l ≡ₚ l.
Proof. unfold sorted. apply (merge_sort_Permutation Z.le). Qed.

Lemma sorted_length (l : list datetime) : length (sorted l) = length l.
Proof. apply Permutation_length, sorted_Permutation. Qed.

(** Sorting forgets the order of its input. *)
Lemma sorted_perm_eq (l1 l2 : list datetime) : l1 ≡ₚ l2 -> sorted l1 = sorted l2.
Proof.
  intros Hp. apply (Sorted_unique Z.le); try apply sorted_Sorted.
  rewrite !sorted_Permutation. exact Hp.
Qed.

Lemma sorted_nil_inv (l : list datetime) : sorted l = [] -> l = [].
Proof.
  intros E. apply Permutation_nil_r. rewrite <- E. symmetry. apply sorted_Permutation.
Qed.

Lemma py_index_nat {A} (l : list A) (k : nat) (x : A) :
  l !! k = Some x -> py_index l (Z.of_nat k) = Ok x.
Proof.
  intros Hk. pose proof (lookup_lt_Some _ _ _ Hk) as Hlt.
  unfold py_index.
  destruct (Z.ltb_spec (Z.of_nat k) 0) as [?|_]; [lia|].
  destruct (Z.ltb_spec (Z.of_nat k) 0) as [?|_]; [lia|].
  destruct (Z.leb_spec (Z.of_nat (length l)) (Z.of_nat k)) as [?|_]; [lia|].
  cbn [orb]. rewrite Nat2Z.id, Hk. reflexivity.
Qed.

Lemma py_index_last {A} (l : list A) (x : A) :
  py_index (l ++ [x]) (-1) = Ok x.
Proof.
  unfold py_index. rewrite length_app. cbn [length].
  replace (-1 <? 0) with true by reflexivity.
  destruct (Z.ltb_spec (-1 + Z.of_nat (length l + 1)) 0) as [?|_]; [lia|].
  destruct (Z.leb_spec (Z.of_nat (length l + 1)) (-1 + Z.of_nat (length l + 1))) as [?|_]; [lia|].
  cbn [orb].
  replace (Z.to_nat (-1 + Z.of_nat (length l + 1))) with (length l) by lia.
  rewrite list_lookup_middle by reflexivity. reflexivity.
Qed.

Lemma range_down_S (k : nat) :
  range_down (Z.of_nat (S k) - 1) (-1) = Z.of_nat k :: range_down (Z.of_nat k - 1) (-1).
Proof.
  unfold range_down.
  replace (Z.to_nat (Z.of_nat (S k) - 1 - -1)) with (S k) by lia.
  replace (Z.to_nat (Z.of_nat k - 1 - -1)) with k by lia.
  cbn [seq map]. f_equal; [lia|].
  rewrite <- seq_shift, map_map. apply map_ext. intros a. lia.
Qed.

Lemma range_down_0 : range_down (Z.of_nat 0 - 1) (-1) = [].
Proof. reflexivity. Qed.

(** ** The loop of [calculate_streaks] *)

(** From index [k] downward the loop never leaves the list, and it counts
    what [walk_back] counts over the completions before index [k]. *)
Lemma streak_loop_walk (l : list datetime) (period : timedelta) (k : nat) :
  forall (x : datetime) (s : Z),
    l !! k = Some x ->
    streak_loop l period (range_down (Z.of_nat k - 1) (-1)) s
    = Ok (walk_back (period + timedelta_hours 12) x (reverse (take k l)) s).
Proof.
  induction k as [|k IH]; intros x s Hx.
  - rewrite range_down_0, take_0. reflexivity.
  - assert (Hy : is_Some (l !! k)).
    { apply lookup_lt_is_Some. apply lookup_lt_Some in Hx. lia. }
    destruct Hy as [y Hy].
    rewrite range_down_S. cbn [streak_loop].
    replace (Z.of_nat k + 1) with (Z.of_nat (S k)) by lia.
    rewrite (py_index_nat l (S k) x Hx), (py_index_nat l k y Hy).
    rewrite (take_S_r l k y Hy), reverse_snoc. cbn [walk_back].
    destruct (x - y <=? period + timedelta_hours 12); [|reflexivity].
    apply IH, Hy.
Qed.

Lemma _period_delta_valid (p : Periodicity) :
  _period_delta (Periodicity_str p) = Ok (period_length p).
Proof. destruct p; reflexivity. Qed.

Lemma valid_periodicity_cases (s : string) :
  s ∈ VALID_PERIODICITIES <-> exists p, s = Periodicity_str p.
Proof.
  unfold VALID_PERIODICITIES. rewrite !elem_of_union, !elem_of_singleton. split.
  - intros [[->| ->]| ->]; [exists daily|exists weekly|exists monthly]; reflexivity.
  - intros [[] ->]; cbn; auto.
Qed.

Lemma _period_delta_invalid (s : string) :
  s ∉ VALID_PERIODICITIES ->
  _period_delta s = Raise (ValueError (String.append "Unsupported periodicity: " s)).
Proof.
  intros Hs. unfold _period_delta.
  destruct (String.eqb_spec s "daily") as [->|_].
  { exfalso. apply Hs, valid_periodicity_cases. exists daily. reflexivity. }
  destruct (String.eqb_spec s "weekly") as [->|_].
  { exfalso. apply Hs, valid_periodicity_cases. exists weekly. reflexivity. }
  destruct (String.eqb_spec s "monthly") as [->|_].
  { exfalso. apply Hs, valid_periodicity_cases. exists monthly. reflexivity. }
  reflexivity.
Qed.

(** What a call of [calculate_streaks] does, for a recognised periodicity:
    without completions it returns 0 and leaves the clock alone; otherwise it
    reads the clock once and returns the reference streak at that reading. *)
Lemma calculate_streaks_run (h : Habit) (p : Periodicity) (w : World) :
  Habit.periodicity h = Periodicity_str p ->
  calculate_streaks h w =
    match Habit.completions h with
    | [] => (Ok 0, w)
    | _ :: _ =>
        (Ok (calculate_current_streak (Habit.completions h) p (now_of w)), tick w)
    end.
Proof.
  intros Hp. unfold calculate_streaks, calculate_current_streak.
  destruct (sorted (Habit.completions h)) as [|c cs] eqn:Es.
  - apply sorted_nil_inv in Es. rewrite Es. reflexivity.
  - destruct (Habit.completions h) as [|c0 cs0] eqn:Ec.
    { discriminate Es. }
    rewrite Hp, _period_delta_valid.
    destruct (exists_last (l := c :: cs)) as (front & lst & E); [discriminate|].
    rewrite E, reverse_snoc.
    unfold bind, liftR, utcnow, ret. fold (now_of w). fold (tick w).
    rewrite py_index_last. unfold window.
    destruct (now_of w - lst >? period_length p + timedelta_hours 12); [reflexivity|].
    rewrite length_app. cbn [length].
    replace (Z.of_nat (length front + 1) - 2) with (Z.of_nat (length front) - 1) by lia.
    rewrite (streak_loop_walk (front ++ [lst]) (period_length p) (length front) lst 1).
    + rewrite take_app_length. reflexivity.
    + apply list_lookup_middle. reflexivity.
Qed.

(** For a periodicity that is not recognised: 0 without completions, the
    [ValueError] of [_period_delta] otherwise, before the clock is read. *)
Lemma calculate_streaks_run_invalid (h : Habit) (w : World) :
  Habit.periodicity h ∉ VALID_PERIODICITIES ->
  calculate_streaks h w =
    match Habit.completions h with
    | [] => (Ok 0, w)
    | _ :: _ =>
        (Raise (ValueError
           (String.append "Unsupported periodicity: " (Habit.periodicity h))), w)
    end.
Proof.
  intros Hp. unfold calculate_streaks.
  destruct (sorted (Habit.completions h)) as [|c cs] eqn:Es.
  - apply sorted_nil_inv in Es. rewrite Es. reflexivity.
  - destruct (Habit.completions h) as [|c0 cs0] eqn:Ec.
    { discriminate Es. }
    rewrite (_period_delta_invalid _ Hp). reflexivity.
Qed.

(** ** Bounds of the reference streak *)

Lemma walk_back_bounds (win : timedelta) (before : list datetime) :
  forall (later : datetime) (s : Z),
    s <= walk_back win later before s <= s + Z.of_nat (length before).
Proof.
  induction before as [|c before IH]; intros later s; cbn [walk_back length].
  - lia.
  - destruct (later - c <=? win).
    + specialize (IH c (s + 1)). lia.
    + lia.
Qed.

Lemma calculate_current_streak_bounds (cs : list datetime) (p : Periodicity)
    (now : datetime) :
  0 <= calculate_current_streak cs p now <= Z.of_nat (length cs).
Proof.
  unfold calculate_current_streak.
  pose proof (length_reverse (sorted cs)) as Hl. rewrite sorted_length in Hl.
  destruct (reverse (sorted cs)) as [|lst before]; cbn [length] in Hl.
  - lia.
  - destruct (now - lst >? window p); [lia|].
    pose proof (walk_back_bounds (window p) before lst 1). lia.
Qed.

(** ** The claims about [calculate_streaks] *)

(** C1. For a habit whose periodicity is one of daily, weekly and monthly,
    [calculate_streaks] returns what the reference algorithm returns at the
    clock reading of the call: sort ascending; 0 for an empty log; with the
    window of period + 12h, 0 when now minus the last completion exceeds the
    window; otherwise start at 1 and walk backward through adjacent pairs,
    counting while the gap is at most the window. *)
Theorem calculate_streaks_refines_reference (h : Habit) (p : Periodicity) (w : World) :
  Habit.periodicity h = Periodicity_str p ->
  fst (calculate_streaks h w)
  = Ok (calculate_current_streak (Habit.completions h) p (now_of w)).
Proof.
  intros Hp. rewrite (calculate_streaks_run h p w Hp).
  destruct (Habit.completions h); reflexivity.
Qed.

Lemma calculate_streaks_refines_reference_witness :
  Habit.periodicity workout = Periodicity_str weekly /\
  fst (calculate_streaks workout (world_at t0))
  = Ok (calculate_current_streak (Habit.completions workout) weekly (now_of (world_at t0))).
Proof.
  split; [reflexivity|].
  apply (calculate_streaks_refines_reference workout weekly (world_at t0)).
  reflexivity.
Defined.

(** The boundary is inclusive: a gap of exactly the window still counts, one
    microsecond more does not. *)
Lemma window_boundary_inclusive (p : Periodicity) (now : datetime) :
  calculate_current_streak [now - window p; now] p now = 2 /\
  calculate_current_streak [now - window p - 1; now] p now = 1.
Proof.
  assert (Hw : 0 < window p) by (destruct p; reflexivity).
  unfold calculate_current_streak.
  assert (E1 : sorted [now - window p; now] = [now - window p; now]).
  { apply (Sorted_unique Z.le); [apply sorted_Sorted| |apply sorted_Permutation].
    repeat constructor. lia. }
  assert (E2 : sorted [now - window p - 1; now] = [now - window p - 1; now]).
  { apply (Sorted_unique Z.le); [apply sorted_Sorted| |apply sorted_Permutation].
    repeat constructor. lia. }
  rewrite E1, E2. cbn [reverse rev_append walk_back]. unfold reverse; cbn [rev_append walk_back].
  rewrite !Z.gtb_ltb.
  destruct (Z.ltb_spec (window p) (now - now)) as [?|_]; [lia|].
  destruct (Z.leb_spec (now - (now - window p)) (window p)) as [_|?]; [|lia].
  destruct (Z.leb_spec (now - (now - window p - 1)) (window p)) as [?|_]; [lia|].
  split; reflexivity.
Qed.

(** C2, as stated, fails: [calculate_streaks] takes the habit alone and reads
    the clock itself, so two runs on the same habit need not agree.  Here the
    second run starts in the world the first one left, two days later. *)
Lemma calculate_streaks_two_runs_disagree :
  fst (calculate_streaks drink_water world_drifting) = Ok 1 /\
  fst (calculate_streaks drink_water
         (snd (calculate_streaks drink_water world_drifting))) = Ok 0.
Proof. split; vm_compute; reflexivity. Qed.

(** C2, amended. The result of [calculate_streaks] is a function of the
    completions, the periodicity and the reading the ambient clock gives
    during the call: runs that agree on these three return the same result
    (value or exception); and the only effect of a run is at most one read
    of the clock. *)
Theorem calculate_streaks_function_of_clock_reading (h1 h2 : Habit) (w1 w2 : World) :
  Habit.completions h1 = Habit.completions h2 ->
  Habit.periodicity h1 = Habit.periodicity h2 ->
  now_of w1 = now_of w2 ->
  fst (calculate_streaks h1 w1) = fst (calculate_streaks h2 w2) /\
  (snd (calculate_streaks h1 w1) = w1 \/ snd (calculate_streaks h1 w1) = tick w1).
Proof.
  intros Hc Hp Hn.
  destruct (decide (Habit.periodicity h1 ∈ VALID_PERIODICITIES)) as [Hv|Hv].
  - apply valid_periodicity_cases in Hv as [p Hp1].
    assert (Hp2 : Habit.periodicity h2 = Periodicity_str p) by congruence.
    rewrite (calculate_streaks_run h1 p w1 Hp1), (calculate_streaks_run h2 p w2 Hp2).
    rewrite <- Hc, <- Hn.
    destruct (Habit.completions h1); cbn [fst snd]; auto.
  - assert (Hv2 : Habit.periodicity h2 ∉ VALID_PERIODICITIES) by congruence.
    rewrite (calculate_streaks_run_invalid h1 w1 Hv), (calculate_streaks_run_invalid h2 w2 Hv2).
    rewrite <- Hc, <- Hp.
    destruct (Habit.completions h1); cbn [fst snd]; auto.
Qed.

Lemma calculate_streaks_function_of_clock_reading_witness :
  fst (calculate_streaks drink_water (world_at t0))
  = fst (calculate_streaks (Habit.mk None "Water" "daily" 0 [t0]) world_drifting) /\
  (snd (calculate_streaks drink_water (world_at t0)) = world_at t0 \/
   snd (calculate_streaks drink_water (world_at t0)) = tick (world_at t0)).
Proof.
  apply (calculate_streaks_function_of_clock_reading
           drink_water (Habit.mk None "Water" "daily" 0 [t0])
           (world_at t0) world_drifting); reflexivity.
Defined.

(** C3, as stated, fails: an unrecognised periodicity on a habit without
    completions raises nothing, the call returns 0. *)
Lemma calculate_streaks_unrecognised_without_completions :
  (Habit.periodicity yearly_empty ∉ VALID_PERIODICITIES) /\
  calculate_streaks yearly_empty (world_at t0) = (Ok 0, world_at t0).
Proof.
  split; [|reflexivity].
  intros Hin. apply valid_periodicity_cases in Hin as [p Hp].
  destruct p; discriminate Hp.
Qed.

(** C3, amended. [calculate_streaks] raises exactly when the periodicity
    is outside daily, weekly, monthly and the habit has a completion; the
    exception is the one [_period_delta] raised, handed on unchanged; and
    [_period_delta] itself raises exactly for the periodicities outside the
    three, so for the three recognised values nothing is raised. *)
Theorem calculate_streaks_raises_iff (h : Habit) (w : World) :
  ((exists e, fst (calculate_streaks h w) = Raise e) <->
   ((Habit.periodicity h ∉ VALID_PERIODICITIES) /\ Habit.completions h <> [])) /\
  (forall e, fst (calculate_streaks h w) = Raise e ->
             _period_delta (Habit.periodicity h) = Raise e) /\
  ((exists e, _period_delta (Habit.periodicity h) = Raise e) <->
   Habit.periodicity h ∉ VALID_PERIODICITIES).
Proof.
  destruct (decide (Habit.periodicity h ∈ VALID_PERIODICITIES)) as [Hv|Hv].
  - pose proof Hv as [p Hp]%valid_periodicity_cases.
    rewrite (calculate_streaks_run h p w Hp), Hp, _period_delta_valid.
    rewrite <- Hp.
    split; [split|split; [|split]].
    + intros [e He]. destruct (Habit.completions h); discriminate He.
    + intros [Hn _]. contradiction.
    + intros e He. destruct (Habit.completions h); discriminate He.
    + intros [e He]. discriminate He.
    + intros Hn. contradiction.
  - rewrite (calculate_streaks_run_invalid h w Hv), (_period_delta_invalid _ Hv).
    split; [split|split; [|split]].
    + intros [e He]. split; [exact Hv|].
      destruct (Habit.completions h); [discriminate He|discriminate].
    + intros [_ Hne]. destruct (Habit.completions h); [contradiction|]. eauto.
    + intros e He. destruct (Habit.completions h); [discriminate He|].
      cbn [fst] in He. exact He.
    + intros _. exact Hv.
    + intros _. eauto.
Qed.

Lemma calculate_streaks_raises_iff_witness :
  (exists e, fst (calculate_streaks yearly_done (world_at t0)) = Raise e) /\
  _period_delta (Habit.periodicity yearly_done)
  = Raise (ValueError "Unsupported periodicity: yearly").
Proof.
  split.
  - apply (proj2 (proj1 (calculate_streaks_raises_iff yearly_done (world_at t0)))).
    split; [|discriminate].
    intros Hin. apply valid_periodicity_cases in Hin as [q Hq].
    destruct q; discriminate Hq.
  - apply (proj1 (proj2 (calculate_streaks_raises_iff yearly_done (world_at t0)))).
    reflexivity.
Defined.

(** C4. Whenever [calculate_streaks] returns, the streak is a non-negative
    integer that is at most the number of completions of the habit; and it
    does return for every habit whose periodicity is recognised. *)
Theorem calculate_streaks_bounded (h : Habit) (w : World) :
  (forall n, fst (calculate_streaks h w) = Ok n ->
             0 <= n <= Z.of_nat (length (Habit.completions h))) /\
  (Habit.periodicity h ∈ VALID_PERIODICITIES ->
   exists n, fst (calculate_streaks h w) = Ok n).
Proof.
  destruct (decide (Habit.periodicity h ∈ VALID_PERIODICITIES)) as [Hv|Hv].
  - pose proof Hv as [p Hp]%valid_periodicity_cases.
    rewrite (calculate_streaks_run h p w Hp).
    pose proof (calculate_current_streak_bounds (Habit.completions h) p (now_of w)) as Hb.
    destruct (Habit.completions h) as [|c cs] eqn:Ec; cbn [fst]; split.
    + intros n [= <-]. cbn. lia.
    + eauto.
    + intros n [= <-]. exact Hb.
    + eauto.
  - rewrite (calculate_streaks_run_invalid h w Hv).
    split; [|contradiction].
    destruct (Habit.completions h); cbn [fst]; intros n Hn; [|discriminate Hn].
    injection Hn as <-. cbn. lia.
Qed.

Lemma calculate_streaks_bounded_witness :
  (exists n, fst (calculate_streaks workout (world_at t0)) = Ok n) /\
  0 <= 2 <= Z.of_nat (length (Habit.completions workout)).
Proof.
  split.
  - apply (proj2 (calculate_streaks_bounded workout (world_at t0))).
    apply valid_periodicity_cases. exists weekly. reflexivity.
  - apply (proj1 (calculate_streaks_bounded workout (world_at t0)) 2).
    reflexivity.
Defined.

(** A list that is sorted and has the items of [l] is what [sorted l] returns. *)
Lemma sorted_eq (l l' : list datetime) :
  Sorted Z.le l' -> l' ≡ₚ l -> sorted l = l'.
Proof.
  intros Hs Hp. apply (Sorted_unique Z.le); [apply sorted_Sorted|exact Hs|].
  rewrite sorted_Permutation. symmetry. exact Hp.
Qed.

(** C5. A weekly habit completed at now, six days before and twenty days
    before has streak 2 at now: the 14 days between the two older completions
    exceed the window of 7 days and 12 hours, and the chain ends there. *)
Theorem weekly_scenario_streak_is_2 (i : option Z) (n : string) (c : datetime)
    (w : World) :
  fst (calculate_streaks
         (Habit.mk i n "weekly" c
            [now_of w; now_of w - timedelta_days 6; now_of w - timedelta_days 20]) w)
  = Ok 2 /\
  (now_of w - timedelta_days 6) - (now_of w - timedelta_days 20) = timedelta_days 14 /\
  timedelta_days 14 > window weekly.
Proof.
  split; [|split; [unfold timedelta_days; lia|reflexivity]].
  rewrite (calculate_streaks_run
             (Habit.mk i n "weekly" c
                [now_of w; now_of w - timedelta_days 6; now_of w - timedelta_days 20])
             weekly w eq_refl).
  cbn [Habit.completions fst]. f_equal.
  unfold calculate_current_streak.
  rewrite (sorted_eq _ [now_of w - timedelta_days 20; now_of w - timedelta_days 6; now_of w]).
  - unfold reverse. cbn [rev_append walk_back].
    assert (Hw : window weekly = 648000000000) by reflexivity.
    assert (H6 : timedelta_days 6 = 518400000000) by reflexivity.
    assert (H20 : timedelta_days 20 = 1728000000000) by reflexivity.
    rewrite Hw, H6, H20, Z.gtb_ltb.
    destruct (Z.ltb_spec 648000000000 (now_of w - now_of w)) as [?|_]; [lia|].
    destruct (Z.leb_spec (now_of w - (now_of w - 518400000000)) 648000000000) as [_|?]; [|lia].
    destruct (Z.leb_spec (now_of w - 518400000000 - (now_of w - 1728000000000))
                648000000000) as [?|_]; [lia|].
    reflexivity.
  - assert (H6 : timedelta_days 6 = 518400000000) by reflexivity.
    assert (H20 : timedelta_days 20 = 1728000000000) by reflexivity.
    rewrite H6, H20. repeat constructor; lia.
  - apply Permutation_rev.
Qed.

(** C8. The order in which the completions are stored does not matter:
    a habit and the same habit with its completions reordered have the same
    streak (and the call has the same effect), because the log is sorted
    before anything else is done with it. *)
Theorem calculate_streaks_permutation_invariant (i : option Z) (n p : string)
    (c : datetime) (cs1 cs2 : list datetime) (w : World) :
  cs1 ≡ₚ cs2 ->
  calculate_streaks (Habit.mk i n p c cs1) w = calculate_streaks (Habit.mk i n p c cs2) w.
Proof.
  intros Hperm. unfold calculate_streaks. cbn [Habit.completions Habit.periodicity].
  rewrite (sorted_perm_eq cs1 cs2 Hperm). reflexivity.
Qed.

Lemma calculate_streaks_permutation_invariant_witness :
  [t0; t0 - timedelta_days 6; t0 - timedelta_days 20]
    ≡ₚ [t0 - timedelta_days 6; t0 - timedelta_days 20; t0] /\
  calculate_streaks workout (world_at t0)
  = calculate_streaks
      (Habit.mk (Some 2) "Workout" "weekly" (t0 - timedelta_days 30)
         [t0 - timedelta_days 6; t0 - timedelta_days 20; t0]) (world_at t0).
Proof.
  assert (Hperm : [t0; t0 - timedelta_days 6; t0 - timedelta_days 20]
                    ≡ₚ [t0 - timedelta_days 6; t0 - timedelta_days 20; t0]).
  { apply (Permutation_cons_append [t0 - timedelta_days 6; t0 - timedelta_days 20] t0). }
  split; [exact Hperm|].
  apply (calculate_streaks_permutation_invariant (Some 2) "Workout" "weekly"
           (t0 - timedelta_days 30) _ _ (world_at t0) Hperm).
Defined.

(** C10. [longest_streak_for_habit] is [calculate_streaks]: what it reports
    is the streak that is active at the most recent completion, not the
    longest streak of the history.  The habit [reading] has a run of three
    consecutive days a month back and a single completion today: the report
    is 1, the historical maximum is 3. *)
Theorem longest_streak_for_habit_is_current_streak :
  (forall (h : Habit) (w : World),
      longest_streak_for_habit h w = calculate_streaks h w) /\
  fst (longest_streak_for_habit reading (world_at t0)) = Ok 1 /\
  historical_max_streak (Habit.completions reading) daily = 3.
Proof.
  split; [reflexivity|]. split; vm_compute; reflexivity.
Qed.

(** ** [max] with a key *)

Lemma max_from_first_max {A} (key : A -> Z) (l : list A) :
  forall best : A, first_max key (best :: l) (max_from key best l).
Proof.
  induction l as [|x l IH]; intros best; cbn [max_from].
  - exists [], []. repeat split; constructor.
  - rewrite Z.gtb_ltb. destruct (Z.ltb_spec (key best) (key x)) as [Hlt|Hge].
    + destruct (IH x) as (before & after & E & Hb & Ha).
      exists (best :: before), after. split; [cbn; congruence|]. split; [|exact Ha].
      constructor; [|exact Hb].
      destruct before as [|b before]; cbn in E; injection E as E1 E2.
      * rewrite <- E1. exact Hlt.
      * subst b. apply Forall_cons in Hb as [Hb _]. lia.
    + destruct (IH best) as (before & after & E & Hb & Ha).
      destruct before as [|b before]; cbn in E; injection E as E1 E2.
      * exists [], (x :: after). split; [cbn; congruence|]. split; [constructor|].
        constructor; [rewrite <- E1; exact Hge|exact Ha].
      * subst b. exists (best :: x :: before), after.
        split; [cbn; congruence|]. split; [|exact Ha].
        apply Forall_cons in Hb as [Hb1 Hb2].
        constructor; [exact Hb1|]. constructor; [lia|exact Hb2].
Qed.

(** ** The claims about the aggregates *)

(** A call of [calculate_streaks] on a habit with a recognised periodicity
    returns a streak and leaves the clock where it was or one reading on. *)
Lemma calculate_streaks_returns (h : Habit) (w : World) :
  Habit.periodicity h ∈ VALID_PERIODICITIES ->
  exists (s : Z) (d : nat),
    calculate_streaks h w = (Ok s, mkWorld (clock w) (reads w + d)).
Proof.
  intros [p Hp]%valid_periodicity_cases.
  rewrite (calculate_streaks_run h p w Hp). destruct w as [clk r].
  destruct (Habit.completions h).
  - exists 0, 0%nat. cbn. rewrite Nat.add_0_r. reflexivity.
  - eexists _, 1%nat. unfold tick. cbn. rewrite Nat.add_1_r. reflexivity.
Qed.

Lemma streak_entry_later (w : World) (d : nat) (h : Habit) (entry : string * Z) :
  streak_entry (mkWorld (clock w) (reads w + d)) h entry -> streak_entry w h entry.
Proof.
  intros [Hn [k Hk]]. split; [exact Hn|]. exists (d + k)%nat.
  cbn [clock reads] in Hk. rewrite Nat.add_assoc. exact Hk.
Qed.

(** The list of pairs [longest_streak_overall] builds. *)
Lemma streaks_of_valid_habits (hs : list Habit) :
  forall w : World,
    Forall (fun h => Habit.periodicity h ∈ VALID_PERIODICITIES) hs ->
    exists (streaks : list (string * Z)) (w' : World),
      mapM (fun h => s <- calculate_streaks h ;; ret (Habit.name h, s)) hs w
      = (Ok streaks, w') /\
      Forall2 (streak_entry w) hs streaks.
Proof.
  induction hs as [|h hs IH]; intros w Hv.
  - exists [], w. split; [reflexivity|constructor].
  - apply Forall_cons in Hv as [Hh Hhs].
    destruct (calculate_streaks_returns h w Hh) as (s & d & Es).
    destruct (IH (mkWorld (clock w) (reads w + d)) Hhs) as (streaks & w' & Em & Hf).
    exists ((Habit.name h, s) :: streaks), w'. split.
    + cbn [mapM]. unfold bind, ret in Em |- *. rewrite Es. cbv beta iota.
      rewrite Em. reflexivity.
    + constructor.
      * split; [reflexivity|]. exists 0%nat. cbn [snd].
        destruct w as [clk r]. cbn [clock reads]. rewrite Nat.add_0_r.
        rewrite Es. reflexivity.
      * eapply Forall2_impl; [exact Hf|]. intros h' e'. apply streak_entry_later.
Qed.

Ltac recognised :=
  apply valid_periodicity_cases;
  first [exists daily; reflexivity | exists weekly; reflexivity | exists monthly; reflexivity].

(** C6. [longest_streak_overall] returns [None] for an empty list.  For a
    non-empty list of habits it returns one of the (name, streak) pairs it
    computed, in input order, for the habits: the first pair whose streak is
    the greatest, so that among equal maxima the habit met first wins. *)
Theorem longest_streak_overall_first_max :
  (forall w : World, longest_streak_overall [] w = (Ok None, w)) /\
  (forall (hs : list Habit) (w : World),
      hs <> [] ->
      Forall (fun h => Habit.periodicity h ∈ VALID_PERIODICITIES) hs ->
      exists (streaks : list (string * Z)) (best : string * Z),
        Forall2 (streak_entry w) hs streaks /\
        fst (longest_streak_overall hs w) = Ok (Some best) /\
        first_max snd streaks best).
Proof.
  split; [reflexivity|].
  intros hs w Hne Hv.
  destruct (streaks_of_valid_habits hs w Hv) as (streaks & w' & Em & Hf).
  destruct hs as [|h hs]; [contradiction|].
  destruct streaks as [|e es]; [inversion Hf|].
  exists (e :: es), (max_from snd e es). split; [exact Hf|]. split.
  - unfold longest_streak_overall. unfold bind, ret in Em |- *. rewrite Em.
    reflexivity.
  - apply max_from_first_max.
Qed.

Lemma longest_streak_overall_first_max_witness :
  exists (streaks : list (string * Z)) (best : string * Z),
    Forall2 (streak_entry (world_at t0)) [drink_water; workout; reading] streaks /\
    fst (longest_streak_overall [drink_water; workout; reading] (world_at t0))
    = Ok (Some best) /\
    first_max snd streaks best.
Proof.
  apply (proj2 longest_streak_overall_first_max
           [drink_water; workout; reading] (world_at t0)).
  - discriminate.
  - repeat constructor; recognised.
Defined.

(** Two habits with the greatest streak: the one listed first is returned. *)
Example longest_streak_overall_tie :
  fst (longest_streak_overall
         [drink_water;
          workout;
          Habit.mk (Some 7) "Yoga" "weekly" t0 [t0; t0 - timedelta_days 7];
          reading] (world_at t0))
  = Ok (Some ("Workout", 2)).
Proof. vm_compute. reflexivity. Qed.

(** An exception of [calculate_streaks] ends [longest_streak_overall]. *)
Example longest_streak_overall_raises :
  fst (longest_streak_overall [drink_water; yearly_done] (world_at t0))
  = Raise (ValueError "Unsupported periodicity: yearly").
Proof. vm_compute. reflexivity. Qed.

Section NameLookupProperties.

Variable str_lower : string -> string.

(** C7. [longest_streak_for_habit_name] compares the lower-cased name of
    each habit with the lower-cased query, for equality of the whole
    string.  When no habit matches it returns [None]; otherwise it returns
    what [calculate_streaks] gives for the first habit, in input order,
    that matches. *)
Theorem longest_streak_for_habit_name_first_match
    (hs : list Habit) (name : string) (w : World) :
  (Forall (fun h => ~ name_matches str_lower name h) hs ->
   longest_streak_for_habit_name str_lower hs name w = (Ok None, w)) /\
  (forall (before : list Habit) (h : Habit) (after : list Habit),
      hs = before ++ h :: after ->
      Forall (fun h' => ~ name_matches str_lower name h') before ->
      name_matches str_lower name h ->
      longest_streak_for_habit_name str_lower hs name w
      = (s <- calculate_streaks h ;; ret (Some s)) w).
Proof.
  split.
  - induction 1 as [|h hs Hh _ IH]; cbn [longest_streak_for_habit_name].
    + reflexivity.
    + unfold name_matches in Hh.
      destruct (String.eqb_spec (str_lower (Habit.name h)) (str_lower name));
        [contradiction|exact IH].
  - intros before h after -> Hb Hm.
    induction Hb as [|h' before Hh' _ IH]; cbn [app longest_streak_for_habit_name].
    + unfold name_matches in Hm.
      destruct (String.eqb_spec (str_lower (Habit.name h)) (str_lower name));
        [reflexivity|contradiction].
    + unfold name_matches in Hh'.
      destruct (String.eqb_spec (str_lower (Habit.name h')) (str_lower name));
        [contradiction|exact IH].
Qed.

End NameLookupProperties.

Lemma longest_streak_for_habit_name_first_match_witness :
  longest_streak_for_habit_name lower_ascii [drink_water; workout; reading] "WORKOUT"
    (world_at t0)
  = (s <- calculate_streaks workout ;; ret (Some s)) (world_at t0).
Proof.
  apply (proj2 (longest_streak_for_habit_name_first_match lower_ascii
                  [drink_water; workout; reading] "WORKOUT" (world_at t0))
           [drink_water] workout [reading]).
  - reflexivity.
  - constructor; [|constructor]. unfold name_matches. vm_compute. discriminate.
  - reflexivity.
Defined.

(** The match is on the whole name, whatever the case of the letters; the
    first of two habits that match answers. *)
Example longest_streak_for_habit_name_examples :
  fst (longest_streak_for_habit_name lower_ascii [drink_water; workout] "wOrKoUt"
         (world_at t0)) = Ok (Some 2) /\
  fst (longest_streak_for_habit_name lower_ascii [drink_water; workout] "work"
         (world_at t0)) = Ok None /\
  fst (longest_streak_for_habit_name lower_ascii
         [Habit.mk None "READING" "daily" t0 []; reading] "reading"
         (world_at t0)) = Ok (Some 0).
Proof. repeat split; vm_compute; reflexivity. Qed.

(** C9. [Habit(...)] with a periodicity outside daily, weekly, monthly
    raises [ValueError] from [__post_init__]; a habit that was constructed
    has a recognised periodicity, [_period_delta] returns for it, and
    [calculate_streaks] on it never raises. *)
Theorem Habit_init_validates_periodicity (i : option Z) (n p : string)
    (c : option datetime) (cs : option (list datetime)) (w : World) :
  ((p ∉ VALID_PERIODICITIES) ->
   exists msg, fst (Habit.init i n p c cs w) = Raise (ValueError msg)) /\
  (forall h : Habit,
      fst (Habit.init i n p c cs w) = Ok h ->
      Habit.periodicity h = p /\
      Habit.periodicity h ∈ VALID_PERIODICITIES /\
      (exists d, _period_delta (Habit.periodicity h) = Ok d) /\
      (forall w' : World, exists s, fst (calculate_streaks h w') = Ok s)).
Proof.
  unfold Habit.init, Habit.post_init, bind.
  destruct c as [c|]; unfold ret, utcnow, raise; cbn [Habit.periodicity];
    destruct (bool_decide_reflect (p ∈ VALID_PERIODICITIES)) as [Hv|Hv]; cbn [fst].
  all: split; [intros Hn; try contradiction; eauto|].
  all: intros h [= <-] || (intros h Hh; discriminate Hh).
  all: cbn [Habit.periodicity]; split; [reflexivity|]; split; [exact Hv|]; split.
  all: try (pose proof Hv as [q ->]%valid_periodicity_cases;
            rewrite _period_delta_valid; eauto).
  all: intros w'; match goal with
       | |- context [calculate_streaks ?h _] =>
           destruct (calculate_streaks_returns h w' Hv) as (s & d & E);
           exists s; rewrite E; reflexivity
       end.
Qed.

(** The one method that changes a habit leaves its periodicity alone. *)
Lemma add_completion_keeps_periodicity (h : Habit) (when : option datetime) (w : World) :
  exists (h' : Habit) (w' : World),
    Habit.add_completion h when w = (Ok h', w') /\
    Habit.periodicity h' = Habit.periodicity h /\
    length (Habit.completions h') = S (length (Habit.completions h)).
Proof.
  unfold Habit.add_completion, bind, ret, utcnow.
  destruct when as [t|]; eexists _, _; (split; [reflexivity|]);
    cbn [Habit.periodicity Habit.completions]; rewrite length_app; cbn [length];
    split; [reflexivity|lia|reflexivity|lia].
Qed.

Lemma Habit_init_validates_periodicity_witness :
  (exists msg, fst (Habit.init None "Taxes" "yearly" None None (world_at t0))
               = Raise (ValueError msg)) /\
  (exists s, fst (calculate_streaks drink_water world_drifting) = Ok s).
Proof.
  split.
  - apply (proj1 (Habit_init_validates_periodicity None "Taxes" "yearly" None None
                    (world_at t0))).
    intros Hin. apply valid_periodicity_cases in Hin as [q Hq].
    destruct q; discriminate Hq.
  - apply (proj2 (Habit_init_validates_periodicity (Some 1) "Drink Water" "daily"
                    (Some (t0 - timedelta_days 9)) (Some [t0]) (world_at t0))
             drink_water).
    reflexivity.
Defined.

(** * Further properties of the code *)

(** ** The shape of the sorted log *)

Lemma sorted_snoc_latest (cs : list datetime) :
  cs <> [] ->
  exists (front : list datetime) (lst : datetime),
    sorted cs = front ++ [lst] /\ is_latest lst cs.
Proof.
  intros Hne.
  destruct (exists_last (l := sorted cs)) as (front & lst & E).
  { intros En. apply sorted_nil_inv in En. contradiction. }
  exists front, lst. split; [exact E|]. split.
  - rewrite <- (sorted_Permutation cs), E. apply elem_of_app. right. apply list_elem_of_singleton.
    reflexivity.
  - pose proof (Sorted_StronglySorted Z.le _ (sorted_Sorted cs)) as Hs.
    rewrite E in Hs. apply Forall_forall. intros c Hc.
    rewrite <- (sorted_Permutation cs), E in Hc.
    apply elem_of_app in Hc as [Hc|Hc].
    + apply (StronglySorted_app_1_elem_of Z.le front [lst] c lst Hs Hc).
      apply list_elem_of_singleton. reflexivity.
    + apply list_elem_of_singleton in Hc. lia.
Qed.

Lemma is_latest_unique (m1 m2 : datetime) (cs : list datetime) :
  is_latest m1 cs -> is_latest m2 cs -> m1 = m2.
Proof.
  intros [Hin1 Hall1] [Hin2 Hall2].
  rewrite Forall_forall in Hall1, Hall2.
  specialize (Hall1 _ Hin2). specialize (Hall2 _ Hin1). lia.
Qed.

Lemma calculate_current_streak_snoc (cs front : list datetime) (lst : datetime)
    (p : Periodicity) (now : datetime) :
  sorted cs = front ++ [lst] ->
  calculate_current_streak cs p now
  = if now - lst >? window p then 0 else walk_back (window p) lst (reverse front) 1.
Proof.
  intros E. unfold calculate_current_streak. rewrite E, reverse_snoc. reflexivity.
Qed.

Lemma walk_back_shift (win : timedelta) (before : list datetime) :
  forall (later : datetime) (s d : Z),
    walk_back win later before (s + d) = walk_back win later before s + d.
Proof.
  induction before as [|c before IH]; intros later s d; cbn [walk_back].
  - reflexivity.
  - destruct (later - c <=? win); [|reflexivity].
    replace (s + d + 1) with (s + 1 + d) by lia. apply IH.
Qed.

(** ** When the streak is zero *)

(** X1. For a recognised periodicity the streak is 0 exactly when the habit
    has no completion, or when the clock shows more than the window after
    the latest completion; in every other case it is at least 1. *)
Theorem calculate_streaks_zero_iff (h : Habit) (p : Periodicity) (w : World) :
  Habit.periodicity h = Periodicity_str p ->
  exists n : Z,
    fst (calculate_streaks h w) = Ok n /\
    0 <= n /\
    (n = 0 <->
     Habit.completions h = [] \/
     exists m, is_latest m (Habit.completions h) /\ window p < now_of w - m).
Proof.
  intros Hp. exists (calculate_current_streak (Habit.completions h) p (now_of w)).
  split.
  { rewrite (calculate_streaks_run h p w Hp). destruct (Habit.completions h); reflexivity. }
  pose proof (calculate_current_streak_bounds (Habit.completions h) p (now_of w)) as Hb.
  split; [lia|].
  destruct (Habit.completions h) as [|c cs] eqn:Ec.
  - split; [auto|]. intros _. reflexivity.
  - destruct (sorted_snoc_latest (c :: cs)) as (front & lst & E & Hl); [discriminate|].
    rewrite (calculate_current_streak_snoc _ front lst p (now_of w) E), Z.gtb_ltb.
    pose proof (walk_back_bounds (window p) (reverse front) lst 1) as Hwb.
    destruct (Z.ltb_spec (window p) (now_of w - lst)) as [Hlt|Hge]; split.
    + intros _. right. exists lst. split; [exact Hl|exact Hlt].
    + reflexivity.
    + intros H0. lia.
    + intros [Hnil|(m & Hm & Hlt)]; [discriminate Hnil|].
      rewrite (is_latest_unique m lst _ Hm Hl) in Hlt. lia.
Qed.

Lemma calculate_streaks_zero_iff_witness :
  exists n : Z,
    fst (calculate_streaks reading (world_at (t0 + timedelta_days 2))) = Ok n /\
    0 <= n /\
    (n = 0 <->
     Habit.completions reading = [] \/
     exists m, is_latest m (Habit.completions reading) /\
               window daily < now_of (world_at (t0 + timedelta_days 2)) - m).
Proof.
  apply (calculate_streaks_zero_iff reading daily (world_at (t0 + timedelta_days 2))).
  reflexivity.
Defined.

(** The value a call returns, for a recognised periodicity. *)
Lemma calculate_streaks_value (h : Habit) (p : Periodicity) (w : World) :
  Habit.periodicity h = Periodicity_str p ->
  fst (calculate_streaks h w)
  = Ok (calculate_current_streak (Habit.completions h) p (now_of w)).
Proof.
  intros Hp. rewrite (calculate_streaks_run h p w Hp).
  destruct (Habit.completions h); reflexivity.
Qed.

(** ** The streak is the longest recent chain *)

(** Walking back from [later] takes [k] completions: they form a chain with
    [later] in which neighbours are within the window, and the completion
    after them, if there is one, is further away. *)
Lemma walk_back_chain (win : timedelta) (before : list datetime) :
  forall (later : datetime) (s : Z),
    exists k : nat,
      walk_back win later before s = s + Z.of_nat k /\
      (k <= length before)%nat /\
      Sorted (flip (within win)) (later :: take k before) /\
      (forall x c, (later :: before) !! k = Some x -> before !! k = Some c ->
                   win < x - c).
Proof.
  induction before as [|c before IH]; intros later s; cbn [walk_back].
  - exists 0%nat. repeat split; try (cbn; lia).
    + repeat constructor.
    + intros x c _ Hc. discriminate Hc.
  - destruct (Z.leb_spec (later - c) win) as [Hle|Hgt].
    + destruct (IH c (s + 1)) as (k & Ek & Hk & Hs & Hb).
      exists (S k). split; [rewrite Ek; lia|]. split; [cbn; lia|]. split.
      * cbn [take]. constructor; [exact Hs|]. constructor. exact Hle.
      * intros x c' Hx Hc'. exact (Hb x c' Hx Hc').
    + exists 0%nat. split; [lia|]. split; [cbn; lia|]. split.
      * repeat constructor.
      * intros x c' [= <-] [= <-]. exact Hgt.
Qed.

(** X2. A positive streak [n] counts the last [n] completions of the sorted
    log: these are a chain in which neighbours are at most the window apart,
    the completion just before the chain (if any) is more than the window
    before its first member, and the clock is at most the window past its
    last member. *)
Theorem calculate_streaks_maximal_chain (h : Habit) (p : Periodicity) (w : World)
    (n : Z) :
  Habit.periodicity h = Periodicity_str p ->
  fst (calculate_streaks h w) = Ok n ->
  0 < n ->
  exists older chain : list datetime,
    sorted (Habit.completions h) = older ++ chain /\
    Z.of_nat (length chain) = n /\
    Sorted (within (window p)) chain /\
    (forall a b, last older = Some a -> head chain = Some b -> window p < b - a) /\
    (forall m, last chain = Some m -> now_of w - m <= window p).
Proof.
  intros Hp Hn Hpos. rewrite (calculate_streaks_value h p w Hp) in Hn.
  injection Hn as Hn.
  destruct (Habit.completions h) as [|c cs] eqn:Ec.
  { cbn in Hn. lia. }
  destruct (sorted_snoc_latest (c :: cs)) as (front & lst & E & _); [discriminate|].
  rewrite (calculate_current_streak_snoc _ front lst p (now_of w) E), Z.gtb_ltb in Hn.
  destruct (Z.ltb_spec (window p) (now_of w - lst)) as [Hlt|Hge]; [lia|].
  destruct (walk_back_chain (window p) (reverse front) lst 1) as (k & Ek & Hk & Hs & Hb).
  exists (reverse (drop k (reverse front))), (reverse (take k (reverse front)) ++ [lst]).
  split; [|split; [|split; [|split]]].
  - rewrite E, app_assoc. f_equal.
    rewrite <- reverse_app, take_drop. symmetry. apply reverse_involutive.
  - rewrite length_app, length_reverse, length_take. cbn [length]. lia.
  - apply Sorted_reverse in Hs. rewrite reverse_cons in Hs.
    exact Hs.
  - intros a b Ha Hb'. apply (Hb b a).
    + rewrite <- reverse_cons, head_reverse in Hb'.
      rewrite last_lookup in Hb'. cbn [length Init.Nat.pred] in Hb'.
      rewrite length_take, Nat.min_l in Hb' by exact Hk.
      destruct k as [|k]; [exact Hb'|].
      cbn [lookup list_lookup] in Hb' |- *.
      apply lookup_take_Some in Hb' as [Hb' _]. exact Hb'.
    + rewrite last_reverse, head_lookup, lookup_drop, Nat.add_0_r in Ha. exact Ha.
  - intros m Hm. rewrite last_snoc in Hm. injection Hm as <-. exact Hge.
Qed.

Lemma calculate_streaks_maximal_chain_witness :
  exists older chain : list datetime,
    sorted (Habit.completions workout) = older ++ chain /\
    Z.of_nat (length chain) = 2 /\
    Sorted (within (window weekly)) chain /\
    (forall a b, last older = Some a -> head chain = Some b -> window weekly < b - a) /\
    (forall m, last chain = Some m -> now_of (world_at t0) - m <= window weekly).
Proof.
  apply (calculate_streaks_maximal_chain workout weekly (world_at t0) 2).
  - reflexivity.
  - reflexivity.
  - lia.
Defined.

(** All of [before] is taken when no gap exceeds the window. *)
Lemma walk_back_all (win : timedelta) (before : list datetime) :
  forall (later : datetime) (s : Z),
    Sorted (flip (within win)) (later :: before) ->
    walk_back win later before s = s + Z.of_nat (length before).
Proof.
  induction before as [|c before IH]; intros later s Hs; cbn [walk_back length].
  - lia.
  - apply Sorted_inv in Hs as [Hs Hhd]. apply HdRel_inv in Hhd.
    unfold flip, within in Hhd.
    destruct (Z.leb_spec (later - c) win) as [_|?]; [|lia].
    rewrite (IH c (s + 1) Hs). lia.
Qed.

(** X3. The streak is the number of completions exactly when the log is
    not empty, no two neighbours of the sorted log are more than the window
    apart, and the clock is at most the window past the latest completion.
    Completions with equal timestamps are neighbours with gap 0: each one
    counts. *)
Theorem calculate_streaks_counts_all_iff (h : Habit) (p : Periodicity) (w : World) :
  Habit.periodicity h = Periodicity_str p ->
  Habit.completions h <> [] ->
  (fst (calculate_streaks h w) = Ok (Z.of_nat (length (Habit.completions h))) <->
   Sorted (within (window p)) (sorted (Habit.completions h)) /\
   (forall m, is_latest m (Habit.completions h) -> now_of w - m <= window p)).
Proof.
  intros Hp Hne. rewrite (calculate_streaks_value h p w Hp).
  destruct (sorted_snoc_latest _ Hne) as (front & lst & E & Hl).
  rewrite (calculate_current_streak_snoc _ front lst p (now_of w) E), Z.gtb_ltb.
  assert (Hlen : length (Habit.completions h) = S (length front)).
  { rewrite <- sorted_length, E, length_app. cbn [length]. lia. }
  assert (Hlen0 : Z.of_nat (length (Habit.completions h)) <> 0) by lia.
  split.
  - intros Hn.
    destruct (Z.ltb_spec (window p) (now_of w - lst)) as [Hlt|Hge].
    { injection Hn as Hn. lia. }
    injection Hn as Hn. split.
    + destruct (walk_back_chain (window p) (reverse front) lst 1)
        as (k & Ek & Hk & Hs & _).
      rewrite length_reverse in Hk.
      assert (k = length front) by lia. subst k.
      rewrite <- (length_reverse front), firstn_all in Hs.
      apply Sorted_reverse in Hs.
      rewrite reverse_cons, reverse_involutive in Hs. rewrite E. exact Hs.
    + intros m Hm. rewrite (is_latest_unique m lst _ Hm Hl). exact Hge.
  - intros [Hs Hrecent]. specialize (Hrecent lst Hl).
    destruct (Z.ltb_spec (window p) (now_of w - lst)) as [Hlt|_]; [lia|].
    rewrite E in Hs. apply Sorted_reverse in Hs. rewrite reverse_snoc in Hs.
    rewrite (walk_back_all (window p) (reverse front) lst 1).
    + rewrite length_reverse. f_equal. lia.
    + exact Hs.
Qed.

Lemma calculate_streaks_counts_all_iff_witness :
  fst (calculate_streaks stretching (world_at t0))
  = Ok (Z.of_nat (length (Habit.completions stretching))) <->
  Sorted (within (window daily)) (sorted (Habit.completions stretching)) /\
  (forall m, is_latest m (Habit.completions stretching) ->
             now_of (world_at t0) - m <= window daily).
Proof.
  apply (calculate_streaks_counts_all_iff stretching daily (world_at t0)).
  - reflexivity.
  - discriminate.
Defined.

(** ** Completing a habit *)

Lemma sorted_snoc_max (cs : list datetime) (ts : datetime) :
  Forall (fun c => c <= ts) cs -> sorted (cs ++ [ts]) = sorted cs ++ [ts].
Proof.
  intros Hall. apply sorted_eq.
  - apply Sorted_snoc; [apply sorted_Sorted|].
    destruct cs as [|c cs].
    + replace (sorted []) with (@nil Z) by reflexivity. constructor.
    + destruct (sorted_snoc_latest (c :: cs)) as (front & lst & E & Hin & _);
        [discriminate|].
      rewrite E. constructor. rewrite Forall_forall in Hall. apply Hall, Hin.
  - rewrite sorted_Permutation. reflexivity.
Qed.

(** X4. A completion appended by [add_completion] at a time [ts] that is
    not before any recorded completion ([ts] is [when], or the clock reading
    if [when] is omitted) makes the streak, asked for within the window
    after [ts], one more than the streak the habit had at [ts]. *)
Theorem add_completion_extends_streak (h h' : Habit) (p : Periodicity)
    (when : option datetime) (ts : datetime) (w0 w : World) :
  Habit.periodicity h = Periodicity_str p ->
  default (now_of w0) when = ts ->
  Forall (fun c => c <= ts) (Habit.completions h) ->
  fst (Habit.add_completion h when w0) = Ok h' ->
  now_of w - ts <= window p ->
  exists s : Z,
    fst (calculate_streaks h (world_at ts)) = Ok s /\
    fst (calculate_streaks h' w) = Ok (s + 1).
Proof.
  intros Hp Hts Hall Hadd Hrecent.
  assert (Eh : h' = with_completions h (Habit.completions h ++ [ts])).
  { unfold Habit.add_completion, bind, ret, utcnow in Hadd.
    destruct when as [t|]; cbn in Hadd, Hts; injection Hadd as <-; subst ts;
      reflexivity. }
  subst h'.
  exists (calculate_current_streak (Habit.completions h) p ts).
  split; [apply (calculate_streaks_value h p (world_at ts) Hp)|].
  rewrite (calculate_streaks_value
             (with_completions h (Habit.completions h ++ [ts])) p w Hp).
  cbn [with_completions Habit.completions]. f_equal.
  rewrite (calculate_current_streak_snoc _ _ ts p (now_of w) (sorted_snoc_max _ ts Hall)).
  rewrite Z.gtb_ltb.
  destruct (Z.ltb_spec (window p) (now_of w - ts)) as [?|_]; [lia|].
  unfold calculate_current_streak.
  destruct (reverse (sorted (Habit.completions h))) as [|l b]; cbn [walk_back].
  - reflexivity.
  - rewrite Z.gtb_ltb.
    destruct (Z.leb_spec (ts - l) (window p)) as [Hle|Hgt];
      destruct (Z.ltb_spec (window p) (ts - l)) as [Hlt|Hge]; try lia.
    apply (walk_back_shift (window p) b l 1 1).
Qed.

Lemma add_completion_extends_streak_witness :
  exists s : Z,
    fst (calculate_streaks drink_water (world_at (t0 + timedelta_days 1))) = Ok s /\
    fst (calculate_streaks
           (Habit.mk (Some 1) "Drink Water" "daily" (t0 - timedelta_days 9)
              [t0; t0 + timedelta_days 1])
           (world_at (t0 + timedelta_days 2))) = Ok (s + 1).
Proof.
  apply (add_completion_extends_streak drink_water _ daily None
           (t0 + timedelta_days 1) (world_at (t0 + timedelta_days 1))
           (world_at (t0 + timedelta_days 2))).
  - reflexivity.
  - reflexivity.
  - repeat constructor. vm_compute. discriminate.
  - reflexivity.
  - vm_compute. discriminate.
Defined.

(** ** Shifting time, changing the period, letting time pass *)

Lemma sorted_fmap_add (d : Z) (cs : list datetime) :
  sorted (Z.add d <$> cs) = Z.add d <$> sorted cs.
Proof.
  apply sorted_eq.
  - apply (Sorted_fmap _ Z.le Z.le); [intros x y Hxy; lia|apply sorted_Sorted].
  - apply fmap_Permutation, sorted_Permutation.
Qed.

Lemma walk_back_fmap_add (win : timedelta) (d : Z) (before : list datetime) :
  forall (later : datetime) (s : Z),
    walk_back win (d + later) (Z.add d <$> before) s = walk_back win later before s.
Proof.
  induction before as [|c before IH]; intros later s; cbn [fmap list_fmap walk_back].
  - reflexivity.
  - replace (d + later - (d + c)) with (later - c) by lia.
    destruct (later - c <=? win); [apply IH|reflexivity].
Qed.

(** X5. Only differences of times matter: moving every completion and the
    clock by the same amount [d] leaves the result of [calculate_streaks]
    (streak or exception) as it was. *)
Theorem calculate_streaks_time_shift (h : Habit) (d : Z) (w w' : World) :
  now_of w' = now_of w + d ->
  fst (calculate_streaks (with_completions h (Z.add d <$> Habit.completions h)) w')
  = fst (calculate_streaks h w).
Proof.
  intros Hnow.
  destruct (decide (Habit.periodicity h ∈ VALID_PERIODICITIES)) as [Hv|Hv].
  - pose proof Hv as [p Hp]%valid_periodicity_cases.
    rewrite (calculate_streaks_value h p w Hp).
    rewrite (calculate_streaks_value
               (with_completions h (Z.add d <$> Habit.completions h)) p w' Hp).
    cbn [with_completions Habit.completions]. f_equal.
    unfold calculate_current_streak.
    rewrite sorted_fmap_add, <- fmap_reverse, Hnow.
    destruct (reverse (sorted (Habit.completions h))) as [|l b];
      cbn [fmap list_fmap]; [reflexivity|].
    replace (now_of w + d - (d + l)) with (now_of w - l) by lia.
    destruct (now_of w - l >? window p); [reflexivity|].
    apply walk_back_fmap_add.
  - rewrite (calculate_streaks_run_invalid h w Hv).
    rewrite (calculate_streaks_run_invalid
               (with_completions h (Z.add d <$> Habit.completions h)) w' Hv).
    cbn [with_completions Habit.completions Habit.periodicity].
    destruct (Habit.completions h); reflexivity.
Qed.

Lemma calculate_streaks_time_shift_witness :
  fst (calculate_streaks
         (with_completions workout
            (Z.add (timedelta_hours 2) <$> Habit.completions workout))
         (world_at (t0 + timedelta_hours 2)))
  = fst (calculate_streaks workout (world_at t0)).
Proof.
  apply (calculate_streaks_time_shift workout (timedelta_hours 2) (world_at t0)
           (world_at (t0 + timedelta_hours 2))).
  reflexivity.
Defined.

Lemma walk_back_mono (win1 win2 : timedelta) (before : list datetime) :
  win1 <= win2 ->
  forall (later : datetime) (s : Z),
    walk_back win1 later before s <= walk_back win2 later before s.
Proof.
  intros Hw. induction before as [|c before IH]; intros later s; cbn [walk_back].
  - lia.
  - destruct (Z.leb_spec (later - c) win1) as [H1|H1];
      destruct (Z.leb_spec (later - c) win2) as [H2|H2]; try lia.
    + apply IH.
    + pose proof (walk_back_bounds win2 before c (s + 1)). lia.
Qed.

(** X6. With the same completions and the same clock reading, a longer
    period never gives a shorter streak: daily is at most weekly, weekly at
    most monthly. *)
Theorem calculate_streaks_monotone_in_period (h1 h2 : Habit) (p1 p2 : Periodicity)
    (w : World) (n1 n2 : Z) :
  Habit.completions h1 = Habit.completions h2 ->
  Habit.periodicity h1 = Periodicity_str p1 ->
  Habit.periodicity h2 = Periodicity_str p2 ->
  period_length p1 <= period_length p2 ->
  fst (calculate_streaks h1 w) = Ok n1 ->
  fst (calculate_streaks h2 w) = Ok n2 ->
  n1 <= n2.
Proof.
  intros Hc Hp1 Hp2 Hle H1 H2.
  rewrite (calculate_streaks_value h1 p1 w Hp1) in H1.
  rewrite (calculate_streaks_value h2 p2 w Hp2) in H2.
  injection H1 as <-. injection H2 as <-. rewrite Hc.
  assert (Hw : window p1 <= window p2) by (unfold window; lia).
  unfold calculate_current_streak.
  destruct (reverse (sorted (Habit.completions h2))) as [|l b]; [lia|].
  rewrite !Z.gtb_ltb.
  destruct (Z.ltb_spec (window p1) (now_of w - l)) as [Ha|Ha];
    destruct (Z.ltb_spec (window p2) (now_of w - l)) as [Hb|Hb]; try lia.
  - pose proof (walk_back_bounds (window p2) b l 1). lia.
  - apply walk_back_mono, Hw.
Qed.

Lemma calculate_streaks_monotone_in_period_witness :
  fst (calculate_streaks workout_daily (world_at t0)) = Ok 1 /\
  fst (calculate_streaks workout (world_at t0)) = Ok 2 /\
  1 <= 2.
Proof.
  split; [reflexivity|]. split; [reflexivity|].
  apply (calculate_streaks_monotone_in_period workout_daily workout daily weekly
           (world_at t0) 1 2); try reflexivity.
  vm_compute. discriminate.
Defined.

(** X7. While nothing is completed the streak only decays: at a later
    clock reading it is what it was, or it has dropped to 0. *)
Theorem calculate_streaks_decays (h : Habit) (p : Periodicity) (w1 w2 : World)
    (n1 n2 : Z) :
  Habit.periodicity h = Periodicity_str p ->
  now_of w1 <= now_of w2 ->
  fst (calculate_streaks h w1) = Ok n1 ->
  fst (calculate_streaks h w2) = Ok n2 ->
  n2 = n1 \/ n2 = 0.
Proof.
  intros Hp Hle H1 H2.
  rewrite (calculate_streaks_value h p w1 Hp) in H1.
  rewrite (calculate_streaks_value h p w2 Hp) in H2.
  injection H1 as <-. injection H2 as <-.
  unfold calculate_current_streak.
  destruct (reverse (sorted (Habit.completions h))) as [|l b]; [auto|].
  rewrite !Z.gtb_ltb.
  destruct (Z.ltb_spec (window p) (now_of w1 - l)) as [Ha|Ha];
    destruct (Z.ltb_spec (window p) (now_of w2 - l)) as [Hb|Hb]; auto.
  lia.
Qed.

Lemma calculate_streaks_decays_witness :
  fst (calculate_streaks workout (world_at t0)) = Ok 2 /\
  fst (calculate_streaks workout (world_at (t0 + timedelta_days 8))) = Ok 0 /\
  (0 = 2 \/ 0 = 0).
Proof.
  split; [reflexivity|]. split; [reflexivity|].
  apply (calculate_streaks_decays workout weekly (world_at t0)
           (world_at (t0 + timedelta_days 8)) 2 0); try reflexivity.
  vm_compute. discriminate.
Defined.

(** ** Errors in the ranking *)

(** [calculate_streaks] returns for a habit that has a recognised
    periodicity or no completion. *)
Lemma calculate_streaks_returns_or_empty (h : Habit) (w : World) :
  Habit.periodicity h ∈ VALID_PERIODICITIES \/ Habit.completions h = [] ->
  exists (s : Z) (w' : World), calculate_streaks h w = (Ok s, w').
Proof.
  intros [Hv|He].
  - destruct (calculate_streaks_returns h w Hv) as (s & d & E). eauto.
  - exists 0, w. unfold calculate_streaks. rewrite He. reflexivity.
Qed.

Lemma mapM_streaks_raises (before after : list Habit) (h : Habit) :
  Habit.periodicity h ∉ VALID_PERIODICITIES ->
  Habit.completions h <> [] ->
  Forall (fun h' => Habit.periodicity h' ∈ VALID_PERIODICITIES \/
                    Habit.completions h' = []) before ->
  forall w : World,
    fst (mapM (fun h => s <- calculate_streaks h ;; ret (Habit.name h, s))
           (before ++ h :: after) w)
    = Raise (ValueError (String.append "Unsupported periodicity: " (Habit.periodicity h))).
Proof.
  intros Hv Hne Hok. induction Hok as [|x before Hx _ IH]; intros w.
  - cbn [app mapM]. unfold bind.
    rewrite (calculate_streaks_run_invalid h w Hv).
    destruct (Habit.completions h); [contradiction|reflexivity].
  - destruct (calculate_streaks_returns_or_empty x w Hx) as (s & w' & E).
    specialize (IH w'). cbn [app mapM]. unfold bind, ret in IH |- *.
    rewrite E. cbv beta iota.
    destruct (mapM _ (before ++ h :: after) w') as [[l|e] w'']; cbn [fst] in IH.
    + discriminate IH.
    + exact IH.
Qed.

(** X8. One bad record stops the ranking: when some habit has an
    unrecognised periodicity and at least one completion, and every habit
    before it has a recognised periodicity or no completion,
    [longest_streak_overall] raises the [ValueError] of that habit, whatever
    follows it in the list. *)
Theorem longest_streak_overall_raises_at_first_bad (before after : list Habit)
    (h : Habit) (w : World) :
  Forall (fun h' => Habit.periodicity h' ∈ VALID_PERIODICITIES \/
                    Habit.completions h' = []) before ->
  (Habit.periodicity h ∉ VALID_PERIODICITIES) ->
  Habit.completions h <> [] ->
  fst (longest_streak_overall (before ++ h :: after) w)
  = Raise (ValueError (String.append "Unsupported periodicity: " (Habit.periodicity h))).
Proof.
  intros Hok Hv Hne.
  pose proof (mapM_streaks_raises before after h Hv Hne Hok w) as Hm.
  unfold longest_streak_overall.
  destruct (before ++ h :: after) as [|x l] eqn:El.
  { destruct before; discriminate El. }
  unfold bind, ret in Hm |- *.
  destruct (mapM _ (x :: l) w) as [[r|e] w']; cbn [fst] in Hm.
  - discriminate Hm.
  - injection Hm as ->. reflexivity.
Qed.

Lemma longest_streak_overall_raises_at_first_bad_witness :
  fst (longest_streak_overall ([drink_water; yearly_empty] ++ yearly_done :: [workout])
         (world_at t0))
  = Raise (ValueError "Unsupported periodicity: yearly").
Proof.
  apply (longest_streak_overall_raises_at_first_bad [drink_water; yearly_empty]
           [workout] yearly_done (world_at t0)).
  - constructor; [left; recognised|]. constructor; [right; reflexivity|constructor].
  - intros Hin. apply valid_periodicity_cases in Hin as [q Hq].
    destruct q; discriminate Hq.
  - discriminate.
Defined.

(** ** The listings *)

(** X9. [list_by_periodicity] returns the habits of the given periodicity
    and no others, in the order of the input. *)
Theorem list_by_periodicity_spec (hs : list Habit) (p : string) :
  sublist (list_by_periodicity hs p) hs /\
  (forall h : Habit,
      h ∈ list_by_periodicity hs p <-> h ∈ hs /\ Habit.periodicity h = p).
Proof.
  unfold list_by_periodicity. split.
  - apply sublist_filter.
  - intros h. rewrite list_elem_of_filter. tauto.
Qed.

Lemma list_by_periodicity_daily_weekly_monthly (h : Habit) :
  Habit.periodicity h ∈ VALID_PERIODICITIES ->
  list_by_periodicity [h] "daily" ++ list_by_periodicity [h] "weekly"
    ++ list_by_periodicity [h] "monthly" = [h].
Proof.
  intros [p Hp]%valid_periodicity_cases. unfold list_by_periodicity.
  destruct p; cbn in Hp;
    repeat (first [rewrite filter_cons_True by (rewrite Hp; reflexivity)
                  |rewrite filter_cons_False by (rewrite Hp; discriminate)]);
    reflexivity.
Qed.

(** X10. The three groups that the analysis prints are a partition: for
    habits with recognised periodicities, the daily, the weekly and the
    monthly habits together are the input, each habit once; and asking for
    any other periodicity gives the empty list. *)
Theorem list_by_periodicity_partition (hs : list Habit) :
  Forall (fun h => Habit.periodicity h ∈ VALID_PERIODICITIES) hs ->
  list_by_periodicity hs "daily" ++ list_by_periodicity hs "weekly"
    ++ list_by_periodicity hs "monthly" ≡ₚ hs /\
  (forall q : string, q ∉ VALID_PERIODICITIES -> list_by_periodicity hs q = []).
Proof.
  intros Hv. split.
  - induction Hv as [|h hs Hh _ IH]; [reflexivity|].
    change (h :: hs) with ([h] ++ hs). unfold list_by_periodicity in *.
    rewrite !filter_app.
    rewrite <- IH at 4. rewrite <- (list_by_periodicity_daily_weekly_monthly h Hh) at 4.
    unfold list_by_periodicity.
    generalize (filter (λ h0 : Habit, Habit.periodicity h0 = "daily") [h]).
    generalize (filter (λ h0 : Habit, Habit.periodicity h0 = "weekly") [h]).
    generalize (filter (λ h0 : Habit, Habit.periodicity h0 = "monthly") [h]).
    generalize (filter (λ h0 : Habit, Habit.periodicity h0 = "daily") hs).
    generalize (filter (λ h0 : Habit, Habit.periodicity h0 = "weekly") hs).
    generalize (filter (λ h0 : Habit, Habit.periodicity h0 = "monthly") hs).
    intros m w d m1 w1 d1. solve_Permutation.
  - intros q Hq. unfold list_by_periodicity.
    induction Hv as [|h hs Hh _ IH]; [reflexivity|].
    rewrite filter_cons_False; [exact IH|]. intros E. rewrite E in Hh. contradiction.
Qed.

Lemma list_by_periodicity_partition_witness :
  list_by_periodicity [drink_water; workout; reading] "daily"
    ++ list_by_periodicity [drink_water; workout; reading] "weekly"
    ++ list_by_periodicity [drink_water; workout; reading] "monthly"
    ≡ₚ [drink_water; workout; reading] /\
  (forall q : string, q ∉ VALID_PERIODICITIES ->
                      list_by_periodicity [drink_water; workout; reading] q = []).
Proof.
  apply (list_by_periodicity_partition [drink_water; workout; reading]).
  repeat constructor; recognised.
Defined.

Section ListedNames.

Variable str_lower : string -> string.

(** X11. Every name that [list_all_habits] lists can be looked up: for
    habits with recognised periodicities, [longest_streak_for_habit_name]
    with a listed name returns a streak, never [None]. *)
Theorem listed_name_is_found (hs : list Habit) (name : string) (w : World) :
  Forall (fun h => Habit.periodicity h ∈ VALID_PERIODICITIES) hs ->
  name ∈ list_all_habits hs ->
  exists s : Z, fst (longest_streak_for_habit_name str_lower hs name w) = Ok (Some s).
Proof.
  intros Hv. induction Hv as [|h hs Hh _ IH]; intros Hin.
  - apply elem_of_nil in Hin. contradiction.
  - cbn [longest_streak_for_habit_name].
    destruct (String.eqb_spec (str_lower (Habit.name h)) (str_lower name)) as [_|Hne].
    + destruct (calculate_streaks_returns h w Hh) as (s & d & E).
      exists s. unfold bind, ret. rewrite E. reflexivity.
    + apply IH. unfold list_all_habits in Hin. cbn [map] in Hin.
      apply elem_of_cons in Hin as [->|Hin]; [contradiction|exact Hin].
Qed.

End ListedNames.

Lemma listed_name_is_found_witness :
  exists s : Z,
    fst (longest_streak_for_habit_name lower_ascii [drink_water; workout; reading]
           "Reading" (world_at t0)) = Ok (Some s).
Proof.
  apply (listed_name_is_found lower_ascii [drink_water; workout; reading] "Reading"
           (world_at t0)).
  - repeat constructor; recognised.
  - unfold list_all_habits. cbn [map drink_water workout reading Habit.name].
    apply elem_of_cons. right. apply elem_of_cons. right. apply elem_of_cons. left.
    reflexivity.
Defined.

(** ** Dictionaries *)

Lemma filter_Forall_id {A} (P : A -> Prop) `{forall x, Decision (P x)} (l : list A) :
  Forall P l -> filter P l = l.
Proof.
  induction 1 as [|x l Hx _ IH]; [reflexivity|].
  rewrite filter_cons_True by exact Hx. rewrite IH. reflexivity.
Qed.

Section DictProperties.

Context {V : Type}.

Implicit Types (d : list (Z * V)) (k : Z) (v : V).

Lemma dict_get_set_eq d k v : dict_get k (dict_set k v d) = Some v.
Proof.
  induction d as [|[k' v'] d IH]; cbn [dict_set dict_get].
  - rewrite Z.eqb_refl. reflexivity.
  - destruct (Z.eqb_spec k' k) as [->|Hne]; cbn [dict_get].
    + rewrite Z.eqb_refl. reflexivity.
    + destruct (Z.eqb_spec k' k); [contradiction|exact IH].
Qed.

Lemma dict_get_set_ne d k k0 v : k <> k0 -> dict_get k0 (dict_set k v d) = dict_get k0 d.
Proof.
  intros Hne. induction d as [|[k' v'] d IH]; cbn [dict_set dict_get].
  - destruct (Z.eqb_spec k k0); [contradiction|reflexivity].
  - destruct (Z.eqb_spec k' k) as [->|Hk]; cbn [dict_get].
    + destruct (Z.eqb_spec k k0); [contradiction|reflexivity].
    + destruct (Z.eqb_spec k' k0); [reflexivity|exact IH].
Qed.

Lemma dict_get_Some_elem_of d k v : dict_get k d = Some v -> (k, v) ∈ d.
Proof.
  induction d as [|[k' v'] d IH]; cbn [dict_get]; [discriminate|].
  destruct (Z.eqb_spec k' k) as [->|Hk].
  - intros [= ->]. apply elem_of_cons. left. reflexivity.
  - intros Hg. apply elem_of_cons. right. apply IH, Hg.
Qed.

Lemma dict_get_None d k : dict_get k d = None <-> k ∉ map fst d.
Proof.
  induction d as [|[k' v'] d IH]; cbn [dict_get map fst].
  - split; [intros _ Hin; apply elem_of_nil in Hin; contradiction|reflexivity].
  - rewrite not_elem_of_cons. destruct (Z.eqb_spec k' k) as [->|Hk].
    + split; [discriminate|]. intros [Hne _]. contradiction.
    + rewrite IH. split; [intros Hn; split; [congruence|exact Hn]|intros [_ Hn]; exact Hn].
Qed.

(** A new key goes to the end. *)
Lemma dict_set_fresh d k v : dict_get k d = None -> dict_set k v d = d ++ [(k, v)].
Proof.
  induction d as [|[k' v'] d IH]; cbn [dict_get dict_set app]; [reflexivity|].
  destruct (Z.eqb_spec k' k); [discriminate|]. intros Hg. rewrite (IH Hg). reflexivity.
Qed.

(** A key that is present keeps its place, and the keys stay what they were. *)
Lemma dict_set_keys d k v :
  is_Some (dict_get k d) -> map fst (dict_set k v d) = map fst d.
Proof.
  induction d as [|[k' v'] d IH]; cbn [dict_get dict_set map fst].
  - intros [x Hx]. discriminate Hx.
  - destruct (Z.eqb_spec k' k) as [->|Hk]; cbn [map fst]; [reflexivity|].
    intros Hs. rewrite (IH Hs). reflexivity.
Qed.

Lemma dict_set_elem_of d k v (kv : Z * V) :
  kv ∈ dict_set k v d -> kv = (k, v) \/ kv ∈ d.
Proof.
  induction d as [|[k' v'] d IH]; cbn [dict_set].
  - intros Hin. apply list_elem_of_singleton in Hin. left. exact Hin.
  - destruct (Z.eqb_spec k' k) as [->|Hk]; intros Hin;
      apply elem_of_cons in Hin as [->|Hin].
    + left. reflexivity.
    + right. apply elem_of_cons. right. exact Hin.
    + right. apply elem_of_cons. left. reflexivity.
    + destruct (IH Hin) as [->|Hd]; [left; reflexivity|].
      right. apply elem_of_cons. right. exact Hd.
Qed.

Lemma dict_pop_elem_of d k (kv : Z * V) : kv ∈ dict_pop k d -> kv ∈ d.
Proof.
  induction d as [|[k' v'] d IH]; cbn [dict_pop]; [auto|].
  destruct (Z.eqb_spec k' k) as [->|Hk]; intros Hin.
  - apply elem_of_cons. right. exact Hin.
  - apply elem_of_cons in Hin as [->|Hin]; apply elem_of_cons; [left|right]; auto.
Qed.

Lemma dict_pop_keys_NoDup d k : NoDup (map fst d) -> NoDup (map fst (dict_pop k d)).
Proof.
  induction d as [|[k' v'] d IH]; cbn [dict_pop map fst]; [auto|].
  intros [Hn Hd]%NoDup_cons.
  destruct (Z.eqb_spec k' k) as [->|Hk]; [exact Hd|].
  cbn [map fst]. apply NoDup_cons. split; [|apply IH, Hd].
  intros Hin. apply Hn. apply list_elem_of_fmap in Hin as ([k1 v1] & E & Hin).
  apply list_elem_of_fmap. exists (k1, v1). split; [exact E|].
  apply (dict_pop_elem_of _ _ _ Hin).
Qed.

Lemma dict_get_pop_eq d k : NoDup (map fst d) -> dict_get k (dict_pop k d) = None.
Proof.
  induction d as [|[k' v'] d IH]; cbn [dict_pop map fst]; [reflexivity|].
  intros [Hn Hd]%NoDup_cons.
  destruct (Z.eqb_spec k' k) as [->|Hk].
  - apply dict_get_None. exact Hn.
  - cbn [dict_get]. destruct (Z.eqb_spec k' k); [contradiction|]. apply IH, Hd.
Qed.

Lemma dict_get_pop_ne d k k0 : k <> k0 -> dict_get k0 (dict_pop k d) = dict_get k0 d.
Proof.
  intros Hne. induction d as [|[k' v'] d IH]; cbn [dict_pop dict_get]; [reflexivity|].
  destruct (Z.eqb_spec k' k) as [->|Hk].
  - destruct (Z.eqb_spec k k0); [contradiction|reflexivity].
  - cbn [dict_get]. destruct (Z.eqb_spec k' k0); [reflexivity|exact IH].
Qed.

(** Popping a key of a dictionary without repeated keys removes its item
    and keeps the others in their order. *)
Lemma dict_pop_filter d k :
  NoDup (map fst d) -> dict_pop k d = filter (fun kv => fst kv <> k) d.
Proof.
  induction d as [|[k' v'] d IH]; cbn [dict_pop map fst]; [reflexivity|].
  intros [Hn Hd]%NoDup_cons.
  destruct (Z.eqb_spec k' k) as [->|Hk].
  - rewrite filter_cons_False by (cbn; auto).
    symmetry. apply filter_Forall_id. apply Forall_forall. intros [k1 v1] Hin.
    cbn. intros ->. apply Hn. apply list_elem_of_fmap. exists (k, v1). auto.
  - rewrite filter_cons_True by (cbn; auto). rewrite (IH Hd). reflexivity.
Qed.

End DictProperties.

(** ** The manager, over any storage *)

(** X12. [create_habit] validates before it stores: with a periodicity
    outside daily, weekly, monthly it raises the [ValueError] of the [Habit]
    constructor after one reading of the clock, and the storage, whatever
    handler it is, is left as it was. *)
Theorem create_habit_rejects_before_saving {S : Type} {storage : Storage.Handler S}
    (name p : string) (s : S) (w : World) :
  (p ∉ VALID_PERIODICITIES) ->
  HabitManager.create_habit name p s w
  = (Raise (ValueError (String.append "Invalid periodicity '"
              (String.append p "'. Valid: ['daily', 'monthly', 'weekly']"))),
     s, tick w).
Proof.
  intros Hp.
  unfold HabitManager.create_habit, sm_bind, liftW, utcnow, Habit.init, bind, ret,
    Habit.post_init, raise.
  cbn [Habit.periodicity].
  destruct (bool_decide_reflect (p ∈ VALID_PERIODICITIES)) as [Hv|_]; [contradiction|].
  reflexivity.
Qed.

Lemma create_habit_rejects_before_saving_witness :
  HabitManager.create_habit "Taxes" "yearly" DummyStorage.new (world_at t0)
  = (Raise (ValueError "Invalid periodicity 'yearly'. Valid: ['daily', 'monthly', 'weekly']"),
     DummyStorage.new, tick (world_at t0)).
Proof.
  apply (create_habit_rejects_before_saving "Taxes" "yearly" DummyStorage.new
           (world_at t0)).
  intros Hin. apply valid_periodicity_cases in Hin as [q Hq].
  destruct q; discriminate Hq.
Defined.

Lemma max_from_is_latest (l : list datetime) (x : datetime) :
  is_latest (max_from (fun c => c) x l) (x :: l).
Proof.
  destruct (max_from_first_max (fun c : Z => c) l x) as (before & after & E & Hb & Ha).
  split.
  - rewrite E. apply elem_of_app. right. apply elem_of_cons. left. reflexivity.
  - rewrite E. apply Forall_app. split; [|constructor; [lia|exact Ha]].
    eapply Forall_impl; [exact Hb|]. cbn. intros c Hc. lia.
Qed.

(** X13. [latest_completion] returns what the storage's lookup makes of it:
    [None] when there is no such habit or the habit has no completion,
    otherwise the latest of its completions, in whatever order they are
    stored; it does nothing to the storage beyond that lookup. *)
Theorem latest_completion_is_latest {S : Type} {storage : Storage.Handler S}
    (habit_id : Z) (s s' : S) (w w' : World) (found : option Habit) :
  Storage.get_habit_by_id habit_id s w = (Ok found, s', w') ->
  exists r : option datetime,
    HabitManager.latest_completion habit_id s w = (Ok r, s', w') /\
    match found, r with
    | None, _ => r = None
    | Some h, None => Habit.completions h = []
    | Some h, Some m => is_latest m (Habit.completions h)
    end.
Proof.
  intros Hget.
  unfold HabitManager.latest_completion, HabitManager.get_habit, sm_bind.
  rewrite Hget. destruct found as [h|].
  - destruct (Habit.completions h) as [|c cs] eqn:Ec.
    + exists None. split; reflexivity.
    + exists (Some (max_from (fun c => c) c cs)). split; [reflexivity|].
      apply max_from_is_latest.
  - exists None. split; reflexivity.
Qed.

Lemma latest_completion_is_latest_witness :
  exists r : option datetime,
    HabitManager.latest_completion 2 sample_store (world_at t0)
    = (Ok r, sample_store, world_at t0) /\
    match r with
    | None => Habit.completions workout = []
    | Some m => is_latest m (Habit.completions workout)
    end.
Proof.
  apply (latest_completion_is_latest 2 sample_store sample_store (world_at t0)
           (world_at t0) (Some workout)).
  reflexivity.
Defined.

(** ** The manager, over the in-memory storage *)

(** Running a call of the manager on the in-memory storage. *)
Ltac dummy_storage :=
  unfold HabitManager.get_habit, HabitManager.list_habits, HabitManager.update_habit,
    HabitManager.delete_habit, sm_bind, sm_ret;
  cbn [Storage.save_habit Storage.load_habits Storage.get_habit_by_id
       Storage.update_habit Storage.delete_habit Storage.add_completion
       Storage.get_completions Storage.ensure_tables DummyStorage.handler];
  unfold DummyStorage.save_habit, DummyStorage.load_habits, DummyStorage.get_habit_by_id,
    DummyStorage.update_habit, DummyStorage.delete_habit, DummyStorage.add_completion,
    DummyStorage.get_completions, DummyStorage.ensure_tables;
  cbn [DummyStorage.habits DummyStorage.completions DummyStorage.next_id
       DummyStorage.tables_ensured Habit.id Habit.name Habit.periodicity
       Habit.created_at Habit.completions fst snd].

Lemma wf_next_id_fresh (s : DummyStorage.t) :
  DummyStorage.wf s -> dict_get (DummyStorage.next_id s) (DummyStorage.habits s) = None.
Proof.
  intros [_ Hall]. apply dict_get_None. intros Hin.
  apply list_elem_of_fmap in Hin as ([k v] & E & Hin). cbn in E.
  rewrite Forall_forall in Hall. destruct (Hall _ Hin) as [Hlt _]. cbn in Hlt. lia.
Qed.

Lemma wf_sample_store : DummyStorage.wf sample_store.
Proof.
  split.
  - cbn. repeat (apply NoDup_cons; split;
      [intros Hin; repeat (apply elem_of_cons in Hin as [Hin|Hin]; [discriminate Hin|]);
       apply elem_of_nil in Hin; exact Hin|]).
    apply NoDup_nil. exact I.
  - repeat constructor.
Qed.

(** X14. Creating, then looking up.  On a store built by the manager,
    [create_habit] with a recognised periodicity returns the new habit: its
    id is the store's next id, its creation time the clock reading, its log
    empty.  Afterwards [get_habit] of that id returns the same habit, every
    other id is answered as before, [list_habits] is the old list with the
    new habit at the end, and the store is again well formed with a greater
    next id. *)
Theorem create_habit_round_trip (name p : string) (s : DummyStorage.t) (w : World) :
  DummyStorage.wf s ->
  p ∈ VALID_PERIODICITIES ->
  exists (h : Habit) (s' : DummyStorage.t),
    h = Habit.mk (Some (DummyStorage.next_id s)) name p (now_of w) [] /\
    HabitManager.create_habit name p s w = (Ok (Some h), s', tick w) /\
    (forall w1, HabitManager.get_habit (DummyStorage.next_id s) s' w1
                = (Ok (Some h), s', w1)) /\
    (forall k w1, k <> DummyStorage.next_id s ->
                  HabitManager.get_habit k s' w1
                  = (fst (fst (HabitManager.get_habit k s w1)), s', w1)) /\
    (forall w1, HabitManager.list_habits s' w1
                = (Ok (dict_values (DummyStorage.habits s) ++ [h]), s', w1)) /\
    DummyStorage.wf s' /\
    DummyStorage.next_id s' = DummyStorage.next_id s + 1.
Proof.
  intros Hwf Hp.
  pose proof (wf_next_id_fresh s Hwf) as Hfresh.
  exists (Habit.mk (Some (DummyStorage.next_id s)) name p (now_of w) []).
  exists (DummyStorage.mk
            (dict_set (DummyStorage.next_id s)
               (Habit.mk (Some (DummyStorage.next_id s)) name p (now_of w) [])
               (DummyStorage.habits s))
            (DummyStorage.completions s) (DummyStorage.next_id s + 1)
            (DummyStorage.tables_ensured s)).
  split; [reflexivity|]. split; [|split; [|split; [|split; [|split]]]].
  - unfold HabitManager.create_habit, sm_bind, liftW, utcnow, Habit.init,
      Habit.post_init, bind, ret, raise.
    cbn [Habit.periodicity].
    destruct (bool_decide_reflect (p ∈ VALID_PERIODICITIES)) as [_|Hn]; [|contradiction].
    cbv beta iota zeta. dummy_storage. rewrite dict_get_set_eq. reflexivity.
  - intros w1. dummy_storage. rewrite dict_get_set_eq. reflexivity.
  - intros k w1 Hk. dummy_storage. rewrite dict_get_set_ne by congruence. reflexivity.
  - intros w1. dummy_storage. rewrite (dict_set_fresh _ _ _ Hfresh). unfold dict_values.
    rewrite map_app. reflexivity.
  - destruct Hwf as [Hnd Hall]. split; cbn [DummyStorage.habits DummyStorage.next_id];
      rewrite (dict_set_fresh _ _ _ Hfresh).
    + rewrite map_app. cbn [map fst]. apply NoDup_app. split; [exact Hnd|].
      split; [|apply NoDup_singleton].
      intros k Hk Hin. apply list_elem_of_singleton in Hin. subst k.
      apply dict_get_None in Hfresh. contradiction.
    + apply Forall_app. split.
      * eapply Forall_impl; [exact Hall|]. cbn. intros [k v] [Hlt Hid]. cbn in *.
        split; [lia|exact Hid].
      * constructor; [|constructor]. cbn. split; [lia|reflexivity].
  - reflexivity.
Qed.

Lemma create_habit_round_trip_witness :
  exists (h : Habit) (s' : DummyStorage.t),
    h = Habit.mk (Some (DummyStorage.next_id sample_store)) "Yoga" "weekly"
          (now_of (world_at t0)) [] /\
    HabitManager.create_habit "Yoga" "weekly" sample_store (world_at t0)
    = (Ok (Some h), s', tick (world_at t0)) /\
    (forall w1, HabitManager.get_habit (DummyStorage.next_id sample_store) s' w1
                = (Ok (Some h), s', w1)) /\
    (forall k w1, k <> DummyStorage.next_id sample_store ->
                  HabitManager.get_habit k s' w1
                  = (fst (fst (HabitManager.get_habit k sample_store w1)), s', w1)) /\
    (forall w1, HabitManager.list_habits s' w1
                = (Ok (dict_values (DummyStorage.habits sample_store) ++ [h]), s', w1)) /\
    DummyStorage.wf s' /\
    DummyStorage.next_id s' = DummyStorage.next_id sample_store + 1.
Proof.
  apply (create_habit_round_trip "Yoga" "weekly" sample_store (world_at t0)).
  - exact wf_sample_store.
  - recognised.
Defined.

(** Replacing the habit stored under a key by one with the same id keeps the
    store well formed. *)
Lemma wf_set_existing (s : DummyStorage.t) (hid : Z) (h h' : Habit)
    (cs : list (Z * list datetime)) :
  DummyStorage.wf s ->
  dict_get hid (DummyStorage.habits s) = Some h ->
  Habit.id h' = Habit.id h ->
  DummyStorage.wf
    (DummyStorage.mk (dict_set hid h' (DummyStorage.habits s)) cs
       (DummyStorage.next_id s) (DummyStorage.tables_ensured s)).
Proof.
  intros [Hnd Hall] Hget Hid. split; cbn [DummyStorage.habits DummyStorage.next_id].
  - rewrite dict_set_keys by (rewrite Hget; eauto). exact Hnd.
  - rewrite Forall_forall in Hall |- *. intros kv Hin.
    apply dict_set_elem_of in Hin as [->|Hin]; [|exact (Hall _ Hin)].
    specialize (Hall _ (dict_get_Some_elem_of _ _ _ Hget)). cbn in Hall |- *.
    rewrite Hid. exact Hall.
Qed.

(** X15. Completing a habit that the store does not have: [complete_habit]
    returns [False]; nothing is written and the clock is not read, even
    when no timestamp was given. *)
Theorem complete_habit_unknown (habit_id : Z) (when : option datetime)
    (s : DummyStorage.t) (w : World) :
  fst (fst (HabitManager.get_habit habit_id s w)) = Ok None ->
  HabitManager.complete_habit habit_id when s w = (Ok false, s, w).
Proof.
  unfold HabitManager.complete_habit. dummy_storage. intros [= ->]. reflexivity.
Qed.

Lemma complete_habit_unknown_witness :
  HabitManager.complete_habit 999 None sample_store (world_at t0)
  = (Ok false, sample_store, world_at t0).
Proof.
  apply (complete_habit_unknown 999 None sample_store (world_at t0)). reflexivity.
Defined.

(** X16. Completing a habit that the store has: [complete_habit] returns
    [True] and records the given timestamp, or the clock reading when none
    is given (only then is the clock read).  Afterwards the habit looked up
    has that timestamp at the end of its log, [get_completions] has it at
    the end of its list, every other habit is as before, and the store is
    well formed with the same next id. *)
Theorem complete_habit_records (habit_id : Z) (when : option datetime) (ts : datetime)
    (h : Habit) (s : DummyStorage.t) (w : World) :
  DummyStorage.wf s ->
  fst (fst (HabitManager.get_habit habit_id s w)) = Ok (Some h) ->
  default (now_of w) when = ts ->
  exists s' : DummyStorage.t,
    HabitManager.complete_habit habit_id when s w
    = (Ok true, s', match when with Some _ => w | None => tick w end) /\
    (forall w1, HabitManager.get_habit habit_id s' w1
                = (Ok (Some (with_completions h (Habit.completions h ++ [ts]))), s', w1)) /\
    (forall w1 before,
        Storage.get_completions habit_id s w1 = (Ok before, s, w1) ->
        Storage.get_completions habit_id s' w1 = (Ok (before ++ [ts]), s', w1)) /\
    (forall k w1, k <> habit_id ->
                  HabitManager.get_habit k s' w1
                  = (fst (fst (HabitManager.get_habit k s w1)), s', w1)) /\
    DummyStorage.wf s' /\
    DummyStorage.next_id s' = DummyStorage.next_id s.
Proof.
  intros Hwf Hget Hts. revert Hget. dummy_storage. intros [= Hget].
  exists (DummyStorage.mk
            (dict_set habit_id (with_completions h (Habit.completions h ++ [ts]))
               (DummyStorage.habits s))
            (dict_set habit_id
               (default [] (dict_get habit_id (DummyStorage.completions s)) ++ [ts])
               (DummyStorage.completions s))
            (DummyStorage.next_id s) (DummyStorage.tables_ensured s)).
  split; [|split; [|split; [|split; [|split]]]].
  - unfold HabitManager.complete_habit. dummy_storage. rewrite Hget.
    destruct when as [t|]; cbn in Hts; subst ts.
    + rewrite Hget. reflexivity.
    + unfold liftW, utcnow. cbv beta iota zeta. rewrite Hget. reflexivity.
  - intros w1. dummy_storage. rewrite dict_get_set_eq. reflexivity.
  - intros w1 before. dummy_storage. intros [= <-].
    rewrite dict_get_set_eq. reflexivity.
  - intros k w1 Hk. dummy_storage. rewrite dict_get_set_ne by congruence. reflexivity.
  - apply (wf_set_existing s habit_id h _ _ Hwf Hget). reflexivity.
  - reflexivity.
Qed.

Lemma complete_habit_records_witness :
  exists s' : DummyStorage.t,
    HabitManager.complete_habit 1 None sample_store (world_at (t0 + timedelta_days 1))
    = (Ok true, s', tick (world_at (t0 + timedelta_days 1))) /\
    (forall w1, HabitManager.get_habit 1 s' w1
                = (Ok (Some (with_completions drink_water
                               (Habit.completions drink_water ++ [t0 + timedelta_days 1]))),
                   s', w1)) /\
    (forall w1 before,
        Storage.get_completions 1 sample_store w1 = (Ok before, sample_store, w1) ->
        Storage.get_completions 1 s' w1
        = (Ok (before ++ [t0 + timedelta_days 1]), s', w1)) /\
    (forall k w1, k <> 1 ->
                  HabitManager.get_habit k s' w1
                  = (fst (fst (HabitManager.get_habit k sample_store w1)), s', w1)) /\
    DummyStorage.wf s' /\
    DummyStorage.next_id s' = DummyStorage.next_id sample_store.
Proof.
  apply (complete_habit_records 1 None (t0 + timedelta_days 1) drink_water sample_store
           (world_at (t0 + timedelta_days 1))).
  - exact wf_sample_store.
  - reflexivity.
  - reflexivity.
Defined.

Lemma dict_values_pop_by_id (d : list (Z * Habit)) (k : Z) :
  NoDup (map fst d) ->
  Forall (fun kv => Habit.id (snd kv) = Some (fst kv)) d ->
  dict_values (dict_pop k d) = filter (fun h => Habit.id h <> Some k) (dict_values d).
Proof.
  intros Hnd Hall. rewrite (dict_pop_filter d k Hnd). unfold dict_values.
  clear Hnd. induction Hall as [|[k' h'] d Hid _ IH]; [reflexivity|].
  cbn in Hid. cbn [map snd]. destruct (decide (k' = k)) as [->|Hne].
  - rewrite filter_cons_False by (cbn; auto).
    rewrite filter_cons_False by (rewrite Hid; auto). exact IH.
  - rewrite filter_cons_True by (cbn; auto).
    rewrite filter_cons_True by (rewrite Hid; congruence).
    cbn [map snd]. rewrite IH. reflexivity.
Qed.

(** X17. Deleting.  On a store built by the manager, [delete_habit] returns
    whether the store had a habit with that id.  Afterwards the id is not
    found, every other id is answered as before, [list_habits] is the old
    list without the habit of that id, in the same order, and the next id is
    unchanged (an id is not given out again). *)
Theorem delete_habit_removes (habit_id : Z) (s : DummyStorage.t) (w : World) :
  DummyStorage.wf s ->
  exists (deleted : bool) (s' : DummyStorage.t),
    HabitManager.delete_habit habit_id s w = (Ok deleted, s', w) /\
    (deleted = true <->
     exists h, fst (fst (HabitManager.get_habit habit_id s w)) = Ok (Some h)) /\
    (forall w1, HabitManager.get_habit habit_id s' w1 = (Ok None, s', w1)) /\
    (forall k w1, k <> habit_id ->
                  HabitManager.get_habit k s' w1
                  = (fst (fst (HabitManager.get_habit k s w1)), s', w1)) /\
    (forall w1, HabitManager.list_habits s' w1
                = (Ok (filter (fun h => Habit.id h <> Some habit_id)
                         (dict_values (DummyStorage.habits s))), s', w1)) /\
    DummyStorage.wf s' /\
    DummyStorage.next_id s' = DummyStorage.next_id s.
Proof.
  intros Hwf. pose proof Hwf as [Hnd Hall].
  assert (Hids : Forall (fun kv : Z * Habit => Habit.id (snd kv) = Some (fst kv))
                   (DummyStorage.habits s)).
  { eapply Forall_impl; [exact Hall|]. intros kv [_ Hid]. exact Hid. }
  destruct (dict_get habit_id (DummyStorage.habits s)) as [h|] eqn:Hget.
  - exists true.
    exists (DummyStorage.mk (dict_pop habit_id (DummyStorage.habits s))
              (DummyStorage.completions s) (DummyStorage.next_id s)
              (DummyStorage.tables_ensured s)).
    split; [|split; [|split; [|split; [|split; [|split]]]]].
    + dummy_storage. rewrite Hget. reflexivity.
    + dummy_storage. rewrite Hget. split; eauto.
    + intros w1. dummy_storage. rewrite (dict_get_pop_eq _ _ Hnd). reflexivity.
    + intros k w1 Hk. dummy_storage. rewrite dict_get_pop_ne by congruence. reflexivity.
    + intros w1. dummy_storage. rewrite (dict_values_pop_by_id _ _ Hnd Hids). reflexivity.
    + split; cbn [DummyStorage.habits DummyStorage.next_id].
      * apply dict_pop_keys_NoDup, Hnd.
      * rewrite Forall_forall in Hall |- *. intros kv Hin.
        apply Hall. apply (dict_pop_elem_of _ _ _ Hin).
    + reflexivity.
  - exists false, s.
    split; [|split; [|split; [|split; [|split; [|split]]]]].
    + dummy_storage. rewrite Hget. reflexivity.
    + dummy_storage. rewrite Hget. split; [discriminate|]. intros [h Hh]. discriminate Hh.
    + intros w1. dummy_storage. rewrite Hget. reflexivity.
    + intros k w1 _. dummy_storage. reflexivity.
    + intros w1. dummy_storage. f_equal. f_equal. f_equal.
      symmetry. apply filter_Forall_id. unfold dict_values. apply Forall_fmap.
      rewrite Forall_forall in Hids |- *. intros [k h] Hin.
      pose proof (Hids _ Hin) as Hid. cbn in Hid |- *. rewrite Hid. intros [= ->].
      apply dict_get_None in Hget. apply Hget.
      apply list_elem_of_fmap. exists (habit_id, h). auto.
    + exact Hwf.
    + reflexivity.
Qed.

Lemma delete_habit_removes_witness :
  exists (deleted : bool) (s' : DummyStorage.t),
    HabitManager.delete_habit 2 sample_store (world_at t0) = (Ok deleted, s', world_at t0) /\
    (deleted = true <->
     exists h, fst (fst (HabitManager.get_habit 2 sample_store (world_at t0)))
               = Ok (Some h)) /\
    (forall w1, HabitManager.get_habit 2 s' w1 = (Ok None, s', w1)) /\
    (forall k w1, k <> 2 ->
                  HabitManager.get_habit k s' w1
                  = (fst (fst (HabitManager.get_habit k sample_store w1)), s', w1)) /\
    (forall w1, HabitManager.list_habits s' w1
                = (Ok (filter (fun h => Habit.id h <> Some 2)
                         (dict_values (DummyStorage.habits sample_store))), s', w1)) /\
    DummyStorage.wf s' /\
    DummyStorage.next_id s' = DummyStorage.next_id sample_store.
Proof.
  apply (delete_habit_removes 2 sample_store (world_at t0)). exact wf_sample_store.
Defined.

(** X18. Editing is not validated.  [update_habit] hands the new
    periodicity to the storage as it is, and the in-memory storage sets it
    on the habit: for a stored habit with at least one completion and a
    periodicity outside daily, weekly, monthly, the update returns [True],
    the habit looked up afterwards has that periodicity, and
    [calculate_streaks] on it raises [ValueError]. *)
Theorem update_habit_skips_validation (habit_id : Z) (h : Habit) (name : option string)
    (p : string) (s : DummyStorage.t) (w : World) :
  fst (fst (HabitManager.get_habit habit_id s w)) = Ok (Some h) ->
  (p ∉ VALID_PERIODICITIES) ->
  Habit.completions h <> [] ->
  exists (h' : Habit) (s' : DummyStorage.t),
    HabitManager.update_habit habit_id name (Some p) s w = (Ok true, s', w) /\
    (forall w1, HabitManager.get_habit habit_id s' w1 = (Ok (Some h'), s', w1)) /\
    Habit.periodicity h' = p /\
    Habit.completions h' = Habit.completions h /\
    (forall w1, fst (calculate_streaks h' w1)
                = Raise (ValueError (String.append "Unsupported periodicity: " p))).
Proof.
  dummy_storage. intros [= Hget] Hp Hne.
  exists (Habit.mk (Habit.id h) (default (Habit.name h) name) p (Habit.created_at h)
            (Habit.completions h)).
  exists (DummyStorage.mk
            (dict_set habit_id
               (Habit.mk (Habit.id h) (default (Habit.name h) name) p
                  (Habit.created_at h) (Habit.completions h))
               (DummyStorage.habits s))
            (DummyStorage.completions s) (DummyStorage.next_id s)
            (DummyStorage.tables_ensured s)).
  split; [|split; [|split; [|split]]].
  - rewrite Hget. reflexivity.
  - intros w1. dummy_storage. rewrite dict_get_set_eq. reflexivity.
  - reflexivity.
  - reflexivity.
  - intros w1. rewrite calculate_streaks_run_invalid by exact Hp.
    cbn [Habit.completions Habit.periodicity].
    destruct (Habit.completions h); [contradiction|reflexivity].
Qed.

Lemma update_habit_skips_validation_witness :
  exists (h' : Habit) (s' : DummyStorage.t),
    HabitManager.update_habit 2 None (Some "yearly") sample_store (world_at t0)
    = (Ok true, s', world_at t0) /\
    (forall w1, HabitManager.get_habit 2 s' w1 = (Ok (Some h'), s', w1)) /\
    Habit.periodicity h' = "yearly" /\
    Habit.completions h' = Habit.completions workout /\
    (forall w1, fst (calculate_streaks h' w1)
                = Raise (ValueError (String.append "Unsupported periodicity: " "yearly"))).
Proof.
  apply (update_habit_skips_validation 2 workout None "yearly" sample_store (world_at t0)).
  - reflexivity.
  - intros Hin. apply valid_periodicity_cases in Hin as [q Hq].
    destruct q; discriminate Hq.
  - discriminate.
Defined.

(** ** What every store of the manager satisfies *)

Lemma dict_set_elem_of_NoDup {V} (d : list (Z * V)) (k : Z) (v : V) (kv : Z * V) :
  NoDup (map fst d) ->
  kv ∈ dict_set k v d -> kv = (k, v) \/ (kv ∈ d /\ fst kv <> k).
Proof.
  induction d as [|[k' v'] d IH]; cbn [dict_set map fst].
  - intros _ Hin. apply list_elem_of_singleton in Hin. left. exact Hin.
  - intros [Hn Hd]%NoDup_cons.
    destruct (Z.eqb_spec k' k) as [->|Hk]; intros Hin;
      apply elem_of_cons in Hin as [->|Hin].
    + left. reflexivity.
    + right. split; [apply elem_of_cons; right; exact Hin|].
      intros E. apply Hn. apply list_elem_of_fmap. exists kv. auto.
    + right. split; [apply elem_of_cons; left; reflexivity|exact Hk].
    + destruct (IH Hd Hin) as [->|[Hin' Hne]]; [left; reflexivity|].
      right. split; [apply elem_of_cons; right; exact Hin'|exact Hne].
Qed.

Lemma consistent_new (w : World) :
  consistent (snd (fst (HabitManager.init DummyStorage.new w))).
Proof.
  unfold HabitManager.init. dummy_storage. unfold DummyStorage.new.
  repeat split; cbn; try constructor. lia.
Qed.

Lemma consistent_create (s : DummyStorage.t) (w : World) (name p : string) :
  consistent s -> consistent (snd (fst (HabitManager.create_habit name p s w))).
Proof.
  intros Hc. pose proof Hc as (Hwf & Hpos & Hte & Hck & Hcs).
  unfold HabitManager.create_habit, sm_bind, liftW, utcnow, Habit.init,
    Habit.post_init, bind, ret, raise.
  cbn [Habit.periodicity].
  destruct (bool_decide (p ∈ VALID_PERIODICITIES)); cbv beta iota zeta;
    [|exact Hc].
  dummy_storage.
  pose proof (wf_next_id_fresh s Hwf) as Hfresh.
  rewrite (dict_set_fresh _ _ _ Hfresh).
  destruct Hwf as [Hnd Hall].
  split; [split|split; [|split; [|split]]];
    cbn [DummyStorage.habits DummyStorage.next_id DummyStorage.completions
         DummyStorage.tables_ensured].
  - rewrite map_app. cbn [map fst]. apply NoDup_app. split; [exact Hnd|].
    split; [|apply NoDup_singleton].
    intros k Hk Hin. apply list_elem_of_singleton in Hin. subst k.
    apply dict_get_None in Hfresh. contradiction.
  - apply Forall_app. split.
    + eapply Forall_impl; [exact Hall|]. cbn. intros [k v] [Hlt Hid]. cbn in *.
      split; [lia|exact Hid].
    + constructor; [|constructor]. cbn. split; [lia|reflexivity].
  - lia.
  - exact Hte.
  - eapply Forall_impl; [exact Hck|]. cbn. intros kc Hlt. lia.
  - apply Forall_app. split; [exact Hcs|].
    constructor; [|constructor]. cbn.
    assert (Hnone : dict_get (DummyStorage.next_id s) (DummyStorage.completions s) = None).
    { apply dict_get_None. intros Hin.
      apply list_elem_of_fmap in Hin as ([k c] & E & Hin). cbn in E.
      rewrite Forall_forall in Hck. specialize (Hck _ Hin). cbn in Hck. lia. }
    rewrite Hnone. reflexivity.
Qed.

Lemma consistent_update (s : DummyStorage.t) (w : World) (habit_id : Z)
    (name p : option string) :
  consistent s -> consistent (snd (fst (HabitManager.update_habit habit_id name p s w))).
Proof.
  intros Hc. pose proof Hc as (Hwf & Hpos & Hte & Hck & Hcs). dummy_storage.
  destruct (dict_get habit_id (DummyStorage.habits s)) as [h|] eqn:Hget;
    cbn [fst snd]; [|exact Hc].
  split; [|split; [|split; [|split]]];
    cbn [DummyStorage.habits DummyStorage.next_id DummyStorage.completions
         DummyStorage.tables_ensured]; try assumption.
  - apply (wf_set_existing s habit_id h _ _ Hwf Hget). reflexivity.
  - destruct Hwf as [Hnd _].
    rewrite Forall_forall in Hcs |- *. intros kv Hin.
    apply (dict_set_elem_of_NoDup _ _ _ _ Hnd) in Hin as [->|[Hin _]];
      [|exact (Hcs _ Hin)].
    exact (Hcs _ (dict_get_Some_elem_of _ _ _ Hget)).
Qed.

Lemma consistent_delete (s : DummyStorage.t) (w : World) (habit_id : Z) :
  consistent s -> consistent (snd (fst (HabitManager.delete_habit habit_id s w))).
Proof.
  intros Hc. pose proof Hc as (Hwf & Hpos & Hte & Hck & Hcs). dummy_storage.
  destruct (dict_get habit_id (DummyStorage.habits s)) as [h|] eqn:Hget;
    cbn [fst snd]; [|exact Hc].
  destruct Hwf as [Hnd Hall].
  split; [split|split; [|split; [|split]]];
    cbn [DummyStorage.habits DummyStorage.next_id DummyStorage.completions
         DummyStorage.tables_ensured]; try assumption.
  - apply dict_pop_keys_NoDup, Hnd.
  - rewrite Forall_forall in Hall |- *. intros kv Hin.
    apply Hall, (dict_pop_elem_of _ _ _ Hin).
  - rewrite Forall_forall in Hcs |- *. intros kv Hin.
    apply Hcs, (dict_pop_elem_of _ _ _ Hin).
Qed.

Lemma consistent_complete (s : DummyStorage.t) (w : World) (habit_id : Z)
    (when : option datetime) :
  consistent s -> consistent (snd (fst (HabitManager.complete_habit habit_id when s w))).
Proof.
  intros Hc. pose proof Hc as (Hwf & Hpos & Hte & Hck & Hcs).
  unfold HabitManager.complete_habit. dummy_storage.
  destruct (dict_get habit_id (DummyStorage.habits s)) as [h|] eqn:Hget;
    cbn [fst snd]; [|exact Hc].
  assert (Hstate : forall ts,
    consistent
      (DummyStorage.mk
         (dict_set habit_id
            (Habit.mk (Habit.id h) (Habit.name h) (Habit.periodicity h)
               (Habit.created_at h) (Habit.completions h ++ [ts]))
            (DummyStorage.habits s))
         (dict_set habit_id
            (default [] (dict_get habit_id (DummyStorage.completions s)) ++ [ts])
            (DummyStorage.completions s))
         (DummyStorage.next_id s) (DummyStorage.tables_ensured s))).
  { intros ts.
    pose proof (dict_get_Some_elem_of _ _ _ Hget) as Hin0.
    split; [|split; [|split; [|split]]];
      cbn [DummyStorage.habits DummyStorage.next_id DummyStorage.completions
           DummyStorage.tables_ensured]; try assumption.
    - apply (wf_set_existing s habit_id h _ _ Hwf Hget). reflexivity.
    - destruct Hwf as [_ Hall].
      rewrite Forall_forall in Hck. rewrite Forall_forall in Hall.
      rewrite Forall_forall. intros kc Hin.
      apply dict_set_elem_of in Hin as [->|Hin]; [|exact (Hck _ Hin)].
      cbn. destruct (Hall _ Hin0) as [Hlt _]. exact Hlt.
    - destruct Hwf as [Hnd _].
      rewrite Forall_forall in Hcs |- *. intros kv Hin.
      apply (dict_set_elem_of_NoDup _ _ _ _ Hnd) in Hin as [->|[Hin Hne]].
      + pose proof (Hcs _ Hin0) as H0. cbn in H0 |- *.
        rewrite dict_get_set_eq. cbn. rewrite H0. reflexivity.
      + rewrite dict_get_set_ne by congruence. exact (Hcs _ Hin). }
  destruct when as [t|].
  - cbv beta iota zeta. rewrite Hget. apply Hstate.
  - unfold liftW, utcnow. cbv beta iota zeta. rewrite Hget. apply Hstate.
Qed.

(** X19. Whatever calls of the manager a store went through, it is
    consistent: the ids of its habits are distinct, below the next id and
    written on the habits, and the log of every stored habit is the list
    [get_completions] returns for its id. *)
Theorem reachable_consistent (s : DummyStorage.t) : reachable s -> consistent s.
Proof.
  induction 1 as [w|s w name p _ IH|s w _ IH|s w hid _ IH|s w hid name p _ IH
                 |s w hid _ IH|s w hid when _ IH|s w hid _ IH].
  - apply consistent_new.
  - apply consistent_create, IH.
  - exact IH.
  - exact IH.
  - apply consistent_update, IH.
  - apply consistent_delete, IH.
  - apply consistent_complete, IH.
  - unfold HabitManager.latest_completion. dummy_storage.
    destruct (dict_get hid (DummyStorage.habits s)) as [h|]; [|exact IH].
    destruct (Habit.completions h); exact IH.
Qed.

Lemma reachable_consistent_witness :
  consistent
    (snd (fst (HabitManager.complete_habit 1 None
                 (snd (fst (HabitManager.create_habit "Yoga" "weekly"
                              (snd (fst (HabitManager.init DummyStorage.new (world_at t0))))
                              (world_at t0))))
                 (world_at (t0 + timedelta_days 1))))).
Proof.
  apply (reachable_consistent _).
  apply reach_complete, reach_create, reach_init.
Defined.

(** ** From completing to the streak *)

Lemma calculate_current_streak_positive (cs : list datetime) (p : Periodicity)
    (now m : datetime) :
  is_latest m cs -> now - m <= window p -> 1 <= calculate_current_streak cs p now.
Proof.
  intros Hm Hle.
  assert (Hne : cs <> []).
  { destruct Hm as [Hin _]. intros ->. apply elem_of_nil in Hin. exact Hin. }
  destruct (sorted_snoc_latest cs Hne) as (front & lst & E & Hl).
  rewrite (calculate_current_streak_snoc cs front lst p now E), Z.gtb_ltb.
  rewrite (is_latest_unique m lst cs Hm Hl) in Hle.
  destruct (Z.ltb_spec (window p) (now - lst)) as [?|_]; [lia|].
  pose proof (walk_back_bounds (window p) (reverse front) lst 1). lia.
Qed.

(** X20. A habit that was just completed has a streak.  After
    [complete_habit] on a stored habit with a recognised periodicity, at
    timestamp [ts] (the one given, or the clock reading), the habit looked
    up has a streak of at least 1 whenever the clock, at the time of asking,
    is at most the window past [ts]. *)
Theorem completed_habit_has_streak (habit_id : Z) (when : option datetime)
    (ts : datetime) (h : Habit) (p : Periodicity) (s : DummyStorage.t) (w w2 : World) :
  fst (fst (HabitManager.get_habit habit_id s w)) = Ok (Some h) ->
  Habit.periodicity h = Periodicity_str p ->
  default (now_of w) when = ts ->
  now_of w2 - ts <= window p ->
  exists (h' : Habit) (n : Z),
    fst (fst (HabitManager.get_habit habit_id
                (snd (fst (HabitManager.complete_habit habit_id when s w))) w2))
    = Ok (Some h') /\
    fst (calculate_streaks h' w2) = Ok n /\
    1 <= n.
Proof.
  dummy_storage. intros [= Hget] Hp Hts Hrecent.
  exists (with_completions h (Habit.completions h ++ [ts])).
  exists (calculate_current_streak (Habit.completions h ++ [ts]) p (now_of w2)).
  split; [|split].
  - unfold HabitManager.complete_habit. dummy_storage. rewrite Hget.
    destruct when as [t|]; cbn in Hts; subst ts.
    + cbv beta iota zeta. rewrite Hget. cbn [fst snd DummyStorage.habits].
      rewrite dict_get_set_eq. reflexivity.
    + unfold liftW, utcnow. cbv beta iota zeta. rewrite Hget.
      cbn [fst snd DummyStorage.habits]. rewrite dict_get_set_eq. reflexivity.
  - apply (calculate_streaks_value (with_completions h (Habit.completions h ++ [ts]))
             p w2 Hp).
  - destruct (sorted_snoc_latest (Habit.completions h ++ [ts])) as (front & m & _ & Hm).
    { destruct (Habit.completions h); discriminate. }
    apply (calculate_current_streak_positive _ p (now_of w2) m Hm).
    destruct Hm as [_ Hall]. rewrite Forall_forall in Hall.
    assert (ts <= m).
    { apply Hall. apply elem_of_app. right. apply list_elem_of_singleton. reflexivity. }
    lia.
Qed.

Lemma completed_habit_has_streak_witness :
  exists (h' : Habit) (n : Z),
    fst (fst (HabitManager.get_habit 3
                (snd (fst (HabitManager.complete_habit 3 None sample_store
                             (world_at (t0 + timedelta_days 5)))))
                (world_at (t0 + timedelta_days 6))))
    = Ok (Some h') /\
    fst (calculate_streaks h' (world_at (t0 + timedelta_days 6))) = Ok n /\
    1 <= n.
Proof.
  apply (completed_habit_has_streak 3 None (t0 + timedelta_days 5) reading daily
           sample_store (world_at (t0 + timedelta_days 5))
           (world_at (t0 + timedelta_days 6))).
  - reflexivity.
  - reflexivity.
  - reflexivity.
  - vm_compute. discriminate.
Defined.

(** ** Rows of the habits table *)

Section DbRowProperties.

Variable isoformat : datetime -> string.
Variable fromisoformat : string -> Result datetime.

(** X21. A row with an unrecognised periodicity cannot be loaded:
    [from_db_row] raises, either the [ValueError] of [fromisoformat] for the
    creation time or, when that can be read, the [ValueError] of the [Habit]
    constructor; it never returns a habit. *)
Theorem from_db_row_rejects_periodicity (hid : Z) (name p created_at_iso : string)
    (completions : option (list datetime)) (w : World) :
  (p ∉ VALID_PERIODICITIES) ->
  fst (from_db_row fromisoformat (hid, name, p, created_at_iso) completions w)
  = match fromisoformat created_at_iso with
    | Ok _ =>
        Raise (ValueError (String.append "Invalid periodicity '"
                 (String.append p "'. Valid: ['daily', 'monthly', 'weekly']")))
    | Raise e => Raise e
    end.
Proof.
  intros Hp. unfold from_db_row, bind, liftR.
  destruct (fromisoformat created_at_iso) as [t|e]; [|reflexivity].
  unfold Habit.init, Habit.post_init, bind, ret, raise. cbn [Habit.periodicity].
  destruct (bool_decide_reflect (p ∈ VALID_PERIODICITIES)) as [Hv|_]; [contradiction|].
  reflexivity.
Qed.

(** X22. Writing a habit as a row and reading the row back.  For a habit
    with a recognised periodicity whose creation time survives
    [isoformat] and [fromisoformat], [from_db_row] on the row of
    [to_db_row], with an id put in front, returns the habit with that id,
    the same name, periodicity and creation time, and the completions
    handed in (none, when they are omitted); the clock is not read. *)
Theorem db_row_round_trip (h : Habit) (hid : Z) (completions : option (list datetime))
    (w : World) :
  Habit.periodicity h ∈ VALID_PERIODICITIES ->
  fromisoformat (isoformat (Habit.created_at h)) = Ok (Habit.created_at h) ->
  from_db_row fromisoformat
    (let '(name, periodicity, created_at_iso) := to_db_row isoformat h in
     (hid, name, periodicity, created_at_iso))
    completions w
  = (Ok (Habit.mk (Some hid) (Habit.name h) (Habit.periodicity h) (Habit.created_at h)
           (default [] completions)), w).
Proof.
  intros Hv Hiso. unfold to_db_row, from_db_row, bind, liftR.
  rewrite Hiso.
  unfold Habit.init, Habit.post_init, bind, ret, raise. cbn [Habit.periodicity].
  destruct (bool_decide_reflect (Habit.periodicity h ∈ VALID_PERIODICITIES)) as [_|Hn];
    [|contradiction].
  reflexivity.
Qed.

End DbRowProperties.

Lemma from_db_row_rejects_periodicity_witness :
  fst (from_db_row fromisoformat_naive (7, "Taxes", "yearly", "2024-04-25T00:00:00")
         None (world_at t0))
  = Raise (ValueError "Invalid periodicity 'yearly'. Valid: ['daily', 'monthly', 'weekly']").
Proof.
  apply (from_db_row_rejects_periodicity fromisoformat_naive 7 "Taxes" "yearly"
           "2024-04-25T00:00:00" None (world_at t0)).
  intros Hin. apply valid_periodicity_cases in Hin as [q Hq].
  destruct q; discriminate Hq.
Defined.

Lemma db_row_round_trip_witness :
  from_db_row fromisoformat_naive (10, "Reading", "daily", "2024-03-16T00:00:00")
    (Some (Habit.completions reading)) (world_at t0)
  = (Ok (Habit.mk (Some 10) "Reading" "daily" (t0 - timedelta_days 40)
           (Habit.completions reading)), world_at t0).
Proof.
  apply (db_row_round_trip isoformat_naive fromisoformat_naive reading 10
           (Some (Habit.completions reading)) (world_at t0)).
  - recognised.
  - vm_compute. reflexivity.
Defined.
